(** * Cinema seat simulator: the seat grid, hit-testing, toggle/reset and
      the [seats.json] persistence of [Cinema2.py].

    The development embeds the model classes [Seat] and [CinemaHall] and the
    part of the Python runtime they rely on (the values [json.load] can
    return, truthiness, subscripting, [dict.get], tuple keys of a dict), and
    proves the properties of the specification over that embedding.

    Conventions of the embedding.
    - Python integers are [Z]; coordinates, radius and gaps are numbers that
      are read by their exact value, as rationals [Q]. The rounding of
      binary floating point is not part of this model, so no property
      below rests on the exact value of a distance or of a position: the
      properties of toggling, loading and saving hold for whatever seats
      the hit test accepts and whatever centres the layout computes, and
      the one property of the hit test itself is about the centre of a
      seat, where the distance is zero in floating point too.
    - [seats.json] is modelled by what [os.path.exists], [open] and
      [json.load] make of it, see [file_state]; a document written by
      [json.dump] is the value [json.load] gives back for it. A save that
      fails may fail at [open], in [json.dump] or in [close], see
      [write_failure].
    - A method that mutates the hall or the disk is a computation in the
      monad [M]: it maps a machine state to an outcome (a value or a raised
      exception) and the state it leaves behind, which is kept when an
      exception propagates, as the objects are in Python. *)

From Stdlib Require Import ZArith QArith Lia Lqa Permutation.
From stdpp Require Import base list strings.

Local Open Scope Z_scope.

(** ** Python values and the builtin operations the program uses *)

Module Py.

(** A Python [float]: not-a-number, an infinity, or the dyadic number
    [m * 2^e]. *)
Inductive pyfloat :=
| FNaN
| FInf (neg : bool)
| FFinite (m e : Z).

(** The values [json.load] returns. A [dict] with string keys is an
    association list read from the left: the first binding of a key is
    its value. *)
#[warnings="-register-all"]
Inductive pyval :=
| PNone
| PBool (b : bool)
| PInt (n : Z)
| PFloat (f : pyfloat)
| PStr (s : string)
| PList (l : list pyval)
| PDict (kvs : list (string * pyval)).

Inductive exn := AttributeError | TypeError | KeyError | OSError.

Inductive outcome (A : Type) :=
| Ok (a : A)
| Raise (e : exn).
Arguments Ok {A} a.
Arguments Raise {A} e.

Definition obind {A B} (o : outcome A) (k : A -> outcome B) : outcome B :=
  match o with
  | Ok a => k a
  | Raise e => Raise e
  end.

Fixpoint dict_lookup (k : string) (kvs : list (string * pyval)) : option pyval :=
  match kvs with
  | [] => None
  | (k', v) :: rest => if String.eqb k' k then Some v else dict_lookup k rest
  end.

(** The keys of a dict in insertion order, each once. *)
Fixpoint dict_keys (kvs : list (string * pyval)) : list string :=
  match kvs with
  | [] => []
  | (k, _) :: rest =>
      k :: filter (fun k' => negb (String.eqb k k')) (dict_keys rest)
  end.

(** [v.get(k, default)]: only a dict has the attribute [get]. *)
Definition get (v : pyval) (k : string) (default : pyval) : outcome pyval :=
  match v with
  | PDict kvs =>
      match dict_lookup k kvs with
      | Some w => Ok w
      | None => Ok default
      end
  | _ => Raise AttributeError
  end.

(** [v[k]] for a string [k]: a dict looks the key up, a list or a string
    wants an integer index, anything else is not subscriptable. *)
Definition getitem (v : pyval) (k : string) : outcome pyval :=
  match v with
  | PDict kvs =>
      match dict_lookup k kvs with
      | Some w => Ok w
      | None => Raise KeyError
      end
  | _ => Raise TypeError
  end.

Fixpoint chars (s : string) : list pyval :=
  match s with
  | EmptyString => []
  | String a rest => PStr (String a EmptyString) :: chars rest
  end.

(** The elements [for d in v] runs over. *)
Definition iter (v : pyval) : outcome (list pyval) :=
  match v with
  | PList l => Ok l
  | PStr s => Ok (chars s)
  | PDict kvs => Ok (PStr <$> dict_keys kvs)
  | _ => Raise TypeError
  end.

(** [bool(v)]. *)
Definition truth (v : pyval) : bool :=
  match v with
  | PNone => false
  | PBool b => b
  | PInt n => negb (n =? 0)
  | PFloat (FFinite m _) => negb (m =? 0)
  | PFloat _ => true
  | PStr s => negb (String.eqb s EmptyString)
  | PList l => match l with [] => false | _ => true end
  | PDict kvs => match kvs with [] => false | _ => true end
  end.

(** [hash(v)] raises on a list or a dict. *)
Definition hashable (v : pyval) : bool :=
  match v with
  | PList _ | PDict _ => false
  | _ => true
  end.

(** The number a [bool], [int] or finite [float] stands for. *)
Definition num (v : pyval) : option Q :=
  match v with
  | PBool b => Some (if b then 1%Q else 0%Q)
  | PInt n => Some (inject_Z n)
  | PFloat (FFinite m e) => Some (inject_Z m * Qpower 2 e)%Q
  | _ => None
  end.

(** [a == b] on hashable values: numbers compare by value across [bool],
    [int] and [float], strings and [None] with their own kind, a NaN with
    nothing. *)
Definition eq (a b : pyval) : bool :=
  match a, b with
  | PNone, PNone => true
  | PStr s, PStr t => String.eqb s t
  | PFloat (FInf s), PFloat (FInf t) => Bool.eqb s t
  | _, _ =>
      match num a, num b with
      | Some p, Some q => Qeq_bool p q
      | _, _ => false
      end
  end.

(** A dict whose keys are pairs, as [{(d["row"], d["col"]): d ...}]
    builds it: setting a key that is already present replaces its value and
    keeps its place. *)
Definition tupdict := list ((pyval * pyval) * pyval).

Definition key_eq (k1 k2 : pyval * pyval) : bool :=
  eq (fst k1) (fst k2) && eq (snd k1) (snd k2).

Fixpoint tupdict_set (k : pyval * pyval) (v : pyval) (d : tupdict) : tupdict :=
  match d with
  | [] => [(k, v)]
  | (k', v') :: rest =>
      if key_eq k' k then (k', v) :: rest
      else (k', v') :: tupdict_set k v rest
  end.

Fixpoint tupdict_get (k : pyval * pyval) (d : tupdict) : option pyval :=
  match d with
  | [] => None
  | (k', v) :: rest => if key_eq k' k then Some v else tupdict_get k rest
  end.

(** [range(n)]. *)
Definition range (n : Z) : list Z := seqZ 0 n.

End Py.

Import Py.

(** ** Config *)

Definition WINDOW_H : Q := 700.
Definition TOP_MARGIN : Q := 150.
Definition BOTTOM_MARGIN : Q := 80.

(** ** class Seat *)

Module Seat.

Record t := mk {
  row : Z;
  col : Z;
  x : Q;
  y : Q;
  r : Q;
  booked : bool
}.

(** [Seat(row, col, x, y, r)]: a new seat is free. *)
Definition init (row col : Z) (x y r : Q) : t := mk row col x y r false.

Definition set_booked (self : t) (b : bool) : t :=
  mk (row self) (col self) (x self) (y self) (r self) b.

(** [math.hypot(px - self.x, py - self.y) <= self.r], by exact value: the
    distance is at most [r] when [r] is not negative and the squared
    distance is at most [r] squared. *)
Definition contains (self : t) (px py : Q) : bool :=
  let dx := (px - x self)%Q in
  let dy := (py - y self)%Q in
  Qle_bool 0 (r self) && Qle_bool (dx * dx + dy * dy) (r self * r self).

Definition to_dict (self : t) : pyval :=
  PDict [("row"%string, PInt (row self));
         ("col"%string, PInt (col self));
         ("booked"%string, PBool (booked self))].

(** [self.booked = bool(data.get("booked", False))]: the seat is left as
    it is when [data.get] raises. *)
Definition from_dict (self : t) (data : pyval) : outcome unit * t :=
  match get data "booked" (PBool false) with
  | Ok v => (Ok tt, set_booked self (truth v))
  | Raise e => (Raise e, self)
  end.

End Seat.

(** ** class CinemaHall *)

Module CinemaHall.

Record t := mk {
  rows : Z;
  cols : Z;
  radius : Q;
  gap_x : Q;
  gap_y : Q;
  seats : list Seat.t
}.

Definition set_seats (self : t) (l : list Seat.t) : t :=
  mk (rows self) (cols self) (radius self) (gap_x self) (gap_y self) l.

(** What [os.path.exists], [open] and [json.load] make of [seats.json]:
    no such file; a file that cannot be opened or decoded; a text that is
    not JSON; a JSON document, given by the value [json.load] returns. *)
Inductive file_state :=
| Absent
| Unreadable
| NotJSON
| Json (v : pyval).

(** What the program does to the outside, in order: a save that
    returned, a redraw. *)
Inductive event :=
| Saved (v : pyval)
| Drawn (l : list Seat.t).

(** Where a save that fails raises its [OSError]: in [open(DATA_FILE,
    "w")], which leaves the file alone; in [json.dump], after [open] has
    truncated the file, which leaves an empty or partly written text; or
    in the [close] that ends the [with] block, after the whole document
    went out. *)
Inductive write_failure :=
| AtOpen
| Partial
| AtClose.

(** The machine: the hall object, the file, whether a save goes through,
    the effects so far (oldest first), and how a save fails when it does
    not go through. *)
Record State := mkState {
  hall : t;
  file : file_state;
  writable : bool;
  trace : list event;
  failure : write_failure
}.

Definition with_hall (st : State) (h : t) : State :=
  mkState h (file st) (writable st) (trace st) (failure st).

Definition M (A : Type) : Type := State -> outcome A * State.

Definition ret {A} (a : A) : M A := fun st => (Ok a, st).

Definition bind {A B} (c : M A) (k : A -> M B) : M B :=
  fun st =>
    match c st with
    | (Ok a, st') => k a st'
    | (Raise e, st') => (Raise e, st')
    end.

Definition lift {A} (o : outcome A) : M A := fun st => (o, st).

Definition read : M State := fun st => (Ok st, st).

Notation "'let*' x ':=' c 'in' k" := (bind c (fun x => k))
  (at level 10, x name, c at level 100, k at level 200).
Notation "'run' c 'then' k" := (bind c (fun _ => k))
  (at level 10, c at level 100, k at level 200).

(** *** layout *)

Definition _grid_origin (self : t) : Q * Q :=
  let grid_w := (inject_Z (cols self) * (2 * radius self)
                 + (inject_Z (cols self) - 1) * gap_x self)%Q in
  let grid_h := (inject_Z (rows self) * (2 * radius self)
                 + (inject_Z (rows self) - 1) * gap_y self)%Q in
  let x0 := (- grid_w / 2)%Q in
  let y0 := (- WINDOW_H / 2 + BOTTOM_MARGIN + radius self)%Q in
  let y0 := (y0 + (WINDOW_H - TOP_MARGIN - BOTTOM_MARGIN - grid_h) / 2)%Q in
  (x0, y0).

Definition _build_grid (self : t) : t :=
  let '(x0, y0) := _grid_origin self in
  set_seats self
    (range (rows self) ≫= fun r =>
       (fun c =>
          let x := (x0 + inject_Z c * (2 * radius self + gap_x self)
                    + radius self)%Q in
          let y := (y0 + inject_Z r * (2 * radius self + gap_y self)
                    + radius self)%Q in
          Seat.init r c x y (radius self)) <$> range (cols self)).

(** *** persistence *)

(** [{(d["row"], d["col"]): d for d in es}], continued from [acc]: for
    each entry the key is evaluated, row first, then hashed, then set. *)
Fixpoint state_of (es : list pyval) (acc : tupdict) : outcome tupdict :=
  match es with
  | [] => Ok acc
  | d :: rest =>
      obind (getitem d "row") (fun r =>
      obind (getitem d "col") (fun c =>
        if hashable r && hashable c
        then state_of rest (tupdict_set (r, c) d acc)
        else Raise TypeError))
  end.

(** One turn of [for seat in self.seats] in [load_state]. *)
Definition load_seat (state : tupdict) (seat : Seat.t) : outcome unit * Seat.t :=
  match tupdict_get (PInt (Seat.row seat), PInt (Seat.col seat)) state with
  | Some d => if truth d then Seat.from_dict seat d else (Ok tt, seat)
  | None => (Ok tt, seat)
  end.

(** A loop over the seat objects that may stop on an exception: the seats
    already visited keep what the body did to them. *)
Fixpoint for_seats (body : Seat.t -> outcome unit * Seat.t) (l : list Seat.t)
  : outcome unit * list Seat.t :=
  match l with
  | [] => (Ok tt, [])
  | s :: rest =>
      match body s with
      | (Ok _, s') =>
          let '(o, rest') := for_seats body rest in (o, s' :: rest')
      | (Raise e, s') => (Raise e, s' :: rest)
      end
  end.

Definition each_seat (body : Seat.t -> outcome unit * Seat.t) : M unit :=
  fun st =>
    let '(o, l) := for_seats body (seats (hall st)) in
    (o, with_hall st (set_seats (hall st) l)).

Definition load_state : M unit :=
  let* st := read in
  match file st with
  | Absent => ret tt
  | Unreadable | NotJSON => ret tt
  | Json data =>
      let* entries := lift (obind (get data "seats" (PList [])) iter) in
      let* state := lift (state_of entries []) in
      each_seat (load_seat state)
  end.

Definition snapshot (self : t) : pyval :=
  PDict [("seats"%string, PList (Seat.to_dict <$> seats self))].

(** What a failed save of [data] leaves behind. *)
Definition failed_save (st : State) (data : pyval) : State :=
  match failure st with
  | AtOpen => st
  | Partial => mkState (hall st) NotJSON (writable st) (trace st) (failure st)
  | AtClose => mkState (hall st) (Json data) (writable st) (trace st) (failure st)
  end.

Definition save_state : M unit :=
  fun st =>
    let data := snapshot (hall st) in
    if writable st
    then (Ok tt, mkState (hall st) (Json data) true (trace st ++ [Saved data])
                         (failure st))
    else (Raise OSError, failed_save st data).

(** *** drawing: the seats are handed to the rendering backend *)

Definition draw_all : M unit :=
  fun st =>
    (Ok tt, mkState (hall st) (file st) (writable st)
                    (trace st ++ [Drawn (seats (hall st))]) (failure st)).

(** *** interactions *)

Definition flip (s : Seat.t) : Seat.t := Seat.set_booked s (negb (Seat.booked s)).

(** The loop of [toggle_at] over the seats in the order given: the first
    seat that contains the point is flipped and the loop breaks. *)
Fixpoint toggle_first (px py : Q) (l : list Seat.t) : bool * list Seat.t :=
  match l with
  | [] => (false, [])
  | s :: rest =>
      if Seat.contains s px py then (true, flip s :: rest)
      else let '(changed, rest') := toggle_first px py rest in
           (changed, s :: rest')
  end.

Definition toggle_at (px py : Q) : M bool :=
  let* changed :=
    (fun st =>
       let '(changed, l) := toggle_first px py (reverse (seats (hall st))) in
       (Ok changed, with_hall st (set_seats (hall st) (reverse l)))) in
  run (if changed : bool then (run save_state then draw_all) else ret tt) then
  ret changed.

Definition reset_all : M unit :=
  run each_seat (fun s => (Ok tt, Seat.set_booked s false)) then
  run save_state then
  draw_all.

(** [CinemaHall(rows, cols, radius, gap_x, gap_y)]: the new object takes
    the place of the hall of the machine. *)
Definition __init__ (rows cols : Z) (radius gap_x gap_y : Q) : M unit :=
  run (fun st =>
         (Ok tt, with_hall st (_build_grid (mk rows cols radius gap_x gap_y [])))) then
  load_state.

(** The two counters [_draw_footer] writes as ["Free: ...   Sold: ..."]:
    [free = sum(not s.booked for s in self.seats)] and
    [sold = self.rows * self.cols - free]. *)
Definition _draw_footer_counters (self : t) : Z * Z :=
  let free := foldr (fun s acc => (if Seat.booked s then 0 else 1) + acc) 0
                    (seats self) in
  let sold := rows self * cols self - free in
  (free, sold).

End CinemaHall.

Import CinemaHall.

(** ** Vocabulary of the properties *)

(** Everything of a seat but its [booked] flag. *)
Definition geom (s : Seat.t) : Z * Z * Q * Q * Q :=
  (Seat.row s, Seat.col s, Seat.x s, Seat.y s, Seat.r s).

Definition seat_id (s : Seat.t) : Z * Z := (Seat.row s, Seat.col s).

Definition config (h : CinemaHall.t) : Z * Z * Q * Q * Q :=
  (rows h, cols h, radius h, gap_x h, gap_y h).

(** The calls the event handlers and the start-up code make on a hall. *)
Inductive op :=
| Load
| Save
| ToggleAt (px py : Q)
| ResetAll.

(** One call; the handler's caller goes on with the state the call left,
    whether it returned or raised. *)
Definition run_op (o : op) (st : State) : State :=
  match o with
  | Load => snd (load_state st)
  | Save => snd (save_state st)
  | ToggleAt px py => snd (toggle_at px py st)
  | ResetAll => snd (reset_all st)
  end.

Definition run_ops (ops : list op) (st : State) : State :=
  fold_left (fun s o => run_op o s) ops st.

Definition with_file (st : State) (f : file_state) : State :=
  mkState (hall st) f (writable st) (trace st) (failure st).

(** The identities [_build_grid] gives out, in the order of its loops. *)
Definition grid_ids (rows cols : Z) : list (Z * Z) :=
  range rows ≫= fun r => pair r <$> range cols.

(** A hall whose seats are those its configuration lays out, whatever
    their [booked] flags. *)
Definition grid_hall (h : CinemaHall.t) : Prop :=
  geom <$> (seats h) = geom <$> (seats (_build_grid h)).

(** A snapshot entry of the documented form: an object with an integer
    [row], an integer [col] and a boolean [booked] (other fields allowed). *)
Definition entry_id (d : pyval) : option (Z * Z) :=
  match d with
  | PDict kvs =>
      match dict_lookup "row" kvs, dict_lookup "col" kvs with
      | Some (PInt r), Some (PInt c) => Some (r, c)
      | _, _ => None
      end
  | _ => None
  end.

Definition well_formed_entry (d : pyval) : bool :=
  match d with
  | PDict kvs =>
      match dict_lookup "row" kvs, dict_lookup "col" kvs,
            dict_lookup "booked" kvs with
      | Some (PInt _), Some (PInt _), Some (PBool _) => true
      | _, _, _ => false
      end
  | _ => false
  end.

(** The point [(px, py)] falls in the seat, or does not. *)
Definition hit (px py : Q) (s : Seat.t) : Prop := Seat.contains s px py = true.
Definition miss (px py : Q) (s : Seat.t) : Prop := Seat.contains s px py = false.

(** The dict key of an integer identity, and the identity an entry of the
    documented form is filed under. *)
Definition ikey (p : Z * Z) : pyval * pyval := (PInt p.1, PInt p.2).

Definition key_of (d : pyval) : Z * Z := default (0, 0) (entry_id d).

(** The dict the comprehension of [load_state] builds from entries that
    all have integer [row] and [col]. *)
Definition set_entries (es : list pyval) (acc : tupdict) : tupdict :=
  fold_left (fun a d => tupdict_set (ikey (key_of d)) d a) es acc.

Definition int_keyed (d : tupdict) : Prop :=
  Forall (fun kv => exists p, kv.1 = ikey p) d.

(** The file holds the snapshot of the hall as it is in memory. *)
Definition in_sync (st : State) : Prop := file st = Json (snapshot (hall st)).

(** How many seats of a list are booked. *)
Definition booked_count (l : list Seat.t) : Z :=
  Z.of_nat (length (filter (fun s => Seat.booked s = true) l)).

(** The centre [_build_grid] computes for column [c] and for row [r]. *)
Definition seat_x (h : CinemaHall.t) (c : Z) : Q :=
  (fst (_grid_origin h) + inject_Z c * (2 * radius h + gap_x h) + radius h)%Q.

Definition seat_y (h : CinemaHall.t) (r : Z) : Q :=
  (snd (_grid_origin h) + inject_Z r * (2 * radius h + gap_y h) + radius h)%Q.

(** Two states whose halls have the same configuration and seats that
    agree on everything but [booked]. *)
Definition same_frame (st st' : State) : Prop :=
  config (hall st') = config (hall st) /\
  geom <$> (seats (hall st')) = geom <$> (seats (hall st)).

(** ** Frame: what the operations leave alone *)

Lemma set_booked_geom s b : geom (Seat.set_booked s b) = geom s.
Proof. reflexivity. Qed.

Lemma from_dict_geom s d : geom (snd (Seat.from_dict s d)) = geom s.
Proof. unfold Seat.from_dict. destruct (get d "booked" (PBool false)); reflexivity. Qed.

Lemma load_seat_geom state s : geom (snd (load_seat state s)) = geom s.
Proof.
  unfold load_seat.
  destruct (tupdict_get _ state) as [d|]; [|reflexivity].
  destruct (truth d); [apply from_dict_geom | reflexivity].
Qed.

Lemma for_seats_geom body l :
  (forall s, geom (snd (body s)) = geom s) ->
  geom <$> (snd (for_seats body l)) = geom <$> l.
Proof.
  intros Hbody. induction l as [|s l IH]; [reflexivity|].
  simpl. specialize (Hbody s).
  destruct (body s) as [[[]|e] s']; simpl in *.
  - destruct (for_seats body l) as [o l']. simpl in *.
    f_equal; [exact Hbody | exact IH].
  - f_equal; exact Hbody.
Qed.

Lemma toggle_first_geom px py l :
  geom <$> (snd (toggle_first px py l)) = geom <$> l.
Proof.
  induction l as [|s l IH]; [reflexivity|].
  simpl. destruct (Seat.contains s px py); [reflexivity|].
  destruct (toggle_first px py l) as [ch l']. simpl in *.
  f_equal; exact IH.
Qed.

Lemma same_frame_refl st : same_frame st st.
Proof. split; reflexivity. Qed.

Lemma same_frame_trans st1 st2 st3 :
  same_frame st1 st2 -> same_frame st2 st3 -> same_frame st1 st3.
Proof. intros [H1 H2] [H3 H4]. split; congruence. Qed.

Lemma each_seat_frame body st :
  (forall s, geom (snd (body s)) = geom s) ->
  same_frame st (snd (each_seat body st)).
Proof.
  intros Hbody. unfold each_seat.
  pose proof (for_seats_geom body (seats (hall st)) Hbody) as H.
  destruct (for_seats body (seats (hall st))) as [o l]. split; [reflexivity|exact H].
Qed.

Lemma failed_save_hall st data : hall (failed_save st data) = hall st.
Proof. unfold failed_save. destruct (failure st); reflexivity. Qed.

Lemma failed_save_trace st data : trace (failed_save st data) = trace st.
Proof. unfold failed_save. destruct (failure st); reflexivity. Qed.

Lemma save_state_frame st : same_frame st (snd (save_state st)).
Proof.
  unfold save_state. destruct (writable st); [split; reflexivity|].
  simpl. unfold same_frame. rewrite failed_save_hall. split; reflexivity.
Qed.

Lemma draw_all_frame st : same_frame st (snd (draw_all st)).
Proof. split; reflexivity. Qed.

Lemma bind_frame {A B} (c : M A) (k : A -> M B) st :
  same_frame st (snd (c st)) ->
  (forall a st', same_frame st' (snd (k a st'))) ->
  same_frame st (snd (bind c k st)).
Proof.
  intros Hc Hk. unfold bind. destruct (c st) as [[a|e] st']; simpl in *.
  - eapply same_frame_trans; [exact Hc | apply Hk].
  - exact Hc.
Qed.

Lemma load_state_frame st : same_frame st (snd (load_state st)).
Proof.
  unfold load_state. apply bind_frame; [apply same_frame_refl|].
  intros st0 st'. destruct (file st0); try apply same_frame_refl.
  apply bind_frame; [apply same_frame_refl|]. intros entries st1.
  apply bind_frame; [apply same_frame_refl|]. intros state st2.
  apply each_seat_frame, load_seat_geom.
Qed.

Lemma toggle_at_frame px py st : same_frame st (snd (toggle_at px py st)).
Proof.
  unfold toggle_at. apply bind_frame.
  - pose proof (toggle_first_geom px py (reverse (seats (hall st)))) as H.
    destruct (toggle_first px py (reverse (seats (hall st)))) as [ch l].
    split; [reflexivity|]. simpl in *.
    rewrite fmap_reverse, H, <- fmap_reverse, reverse_involutive. reflexivity.
  - intros ch st1. apply bind_frame; [|intros; apply same_frame_refl].
    destruct ch; [|apply same_frame_refl].
    apply bind_frame; [apply save_state_frame | intros; apply draw_all_frame].
Qed.

Lemma reset_all_frame st : same_frame st (snd (reset_all st)).
Proof.
  unfold reset_all. apply bind_frame; [apply each_seat_frame; reflexivity|].
  intros _ st1. apply bind_frame; [apply save_state_frame|].
  intros; apply draw_all_frame.
Qed.

Lemma run_op_frame o st : same_frame st (run_op o st).
Proof.
  destruct o; simpl;
    [apply load_state_frame | apply save_state_frame
    | apply toggle_at_frame | apply reset_all_frame].
Qed.

Lemma run_ops_frame ops st : same_frame st (run_ops ops st).
Proof.
  revert st. induction ops as [|o ops IH]; intros st; [apply same_frame_refl|].
  simpl. eapply same_frame_trans; [apply run_op_frame | apply IH].
Qed.

Lemma init_frame rows cols radius gap_x gap_y st :
  let h0 := _build_grid (CinemaHall.mk rows cols radius gap_x gap_y []) in
  config (hall (snd (__init__ rows cols radius gap_x gap_y st))) = config h0 /\
  geom <$> (seats (hall (snd (__init__ rows cols radius gap_x gap_y st))))
  = geom <$> (seats h0).
Proof.
  intros h0. unfold __init__, bind.
  pose proof (load_state_frame (with_hall st h0)) as [H1 H2].
  fold h0. destruct (load_state (with_hall st h0)) as [[[]|e] st']; simpl in *; auto.
Qed.

(** ** The grid *)

Lemma fmap_bind_list {A B C} (f : B -> C) (g : A -> list B) (l : list A) :
  f <$> (l ≫= g) = l ≫= fun a => f <$> g a.
Proof.
  induction l as [|a l IH]; [reflexivity|].
  rewrite !bind_cons, fmap_app, IH. reflexivity.
Qed.

Lemma length_bind_const {A B} (g : A -> list B) (l : list A) n :
  (forall a, length (g a) = n) -> length (l ≫= g) = (length l * n)%nat.
Proof.
  intros Hg. induction l as [|a l IH]; [reflexivity|].
  rewrite bind_cons, length_app, IH, Hg. simpl. lia.
Qed.

Lemma build_grid_ids h :
  seat_id <$> seats (_build_grid h) = grid_ids (rows h) (cols h).
Proof.
  unfold _build_grid, grid_ids. destruct (_grid_origin h) as [x0 y0]. simpl.
  rewrite fmap_bind_list. apply list_bind_ext; [|reflexivity].
  intros r. rewrite <- list_fmap_compose. reflexivity.
Qed.

Lemma elem_of_range n k : k ∈ range n <-> 0 <= k < n.
Proof. unfold range. rewrite elem_of_seqZ. lia. Qed.

Lemma elem_of_grid_ids rows cols r c :
  (r, c) ∈ grid_ids rows cols <-> (0 <= r < rows /\ 0 <= c < cols).
Proof.
  unfold grid_ids. rewrite list_elem_of_bind. split.
  - intros (r' & Hc & Hr). apply list_elem_of_fmap in Hc as (c' & Heq & Hc).
    inversion Heq; subst. rewrite elem_of_range in Hr, Hc. tauto.
  - intros [Hr Hc]. exists r. rewrite elem_of_range. split; [|exact Hr].
    apply list_elem_of_fmap. exists c. rewrite elem_of_range. tauto.
Qed.

Lemma NoDup_grid_ids rows cols : NoDup (grid_ids rows cols).
Proof.
  unfold grid_ids. apply NoDup_bind.
  - intros r1 r2 [r c] _ _ H1 H2.
    apply list_elem_of_fmap in H1 as (c1 & E1 & _).
    apply list_elem_of_fmap in H2 as (c2 & E2 & _). congruence.
  - intros r _. apply NoDup_fmap_2; [|apply NoDup_seqZ].
    intros c1 c2 E. congruence.
  - apply NoDup_seqZ.
Qed.

Lemma length_grid_ids rows cols :
  length (grid_ids rows cols) = (Z.to_nat rows * Z.to_nat cols)%nat.
Proof.
  unfold grid_ids, range.
  rewrite (length_bind_const _ _ (Z.to_nat cols)).
  - rewrite length_seqZ. reflexivity.
  - intros r. rewrite length_fmap, length_seqZ. reflexivity.
Qed.

Lemma geom_seat_id (l l' : list Seat.t) :
  geom <$> l = geom <$> l' -> seat_id <$> l = seat_id <$> l'.
Proof.
  intros H.
  change seat_id with ((fun g : Z * Z * Q * Q * Q => (g.1.1.1.1, g.1.1.1.2)) ∘ geom).
  rewrite !list_fmap_compose, H. reflexivity.
Qed.

Lemma init_ids rows cols radius gap_x gap_y st :
  seat_id <$> seats (hall (snd (__init__ rows cols radius gap_x gap_y st)))
  = grid_ids rows cols.
Proof.
  destruct (init_frame rows cols radius gap_x gap_y st) as [_ H].
  rewrite (geom_seat_id _ _ H), build_grid_ids. reflexivity.
Qed.

(** C6. For a configuration with at least one row and one column, the
    hall that [CinemaHall(rows, cols, ...)] constructs has exactly
    [rows * cols] seats, no two of them with the same [(row, col)], and
    the identities that occur are exactly the pairs of [[0,rows) x
    [0,cols)] (so each occurs exactly once); any sequence of [load_state],
    [save_state], [toggle_at] and [reset_all] calls leaves the sequence of
    identities as it is. *)
Theorem grid_invariant rows cols radius gap_x gap_y st ops :
  1 <= rows -> 1 <= cols ->
  let st1 := snd (__init__ rows cols radius gap_x gap_y st) in
  let ids := seat_id <$> seats (hall st1) in
  Z.of_nat (length (seats (hall st1))) = rows * cols /\
  NoDup ids /\
  (forall r c, (r, c) ∈ ids <-> (0 <= r < rows /\ 0 <= c < cols)) /\
  seat_id <$> seats (hall (run_ops ops st1)) = ids.
Proof.
  intros Hrows Hcols st1 ids.
  assert (Hids : ids = grid_ids rows cols) by apply init_ids.
  split; [|split; [|split]].
  - rewrite <- (length_fmap seat_id). fold ids.
    rewrite Hids, length_grid_ids. lia.
  - rewrite Hids. apply NoDup_grid_ids.
  - intros r c. rewrite Hids. apply elem_of_grid_ids.
  - apply geom_seat_id. apply (run_ops_frame ops st1).
Qed.

Lemma grid_invariant_witness :
  let st0 := mkState (CinemaHall.mk 0 0 0 0 0 []) Absent true [] AtOpen in
  let st1 := snd (__init__ 2 3 10 18 24 st0) in
  let ids := seat_id <$> seats (hall st1) in
  Z.of_nat (length (seats (hall st1))) = 2 * 3 /\
  NoDup ids /\
  (forall r c, (r, c) ∈ ids <-> (0 <= r < 2 /\ 0 <= c < 3)) /\
  seat_id <$> seats (hall (run_ops [ToggleAt 0 0; ResetAll; Load] st1)) = ids.
Proof.
  apply (grid_invariant 2 3 10 18 24
           (mkState (CinemaHall.mk 0 0 0 0 0 []) Absent true [] AtOpen)
           [ToggleAt 0 0; ResetAll; Load]); lia.
Defined.

Lemma geometry_frame_of_run rows cols radius gap_x gap_y st ops :
  let st2 := run_ops ops (snd (__init__ rows cols radius gap_x gap_y st)) in
  geom <$> seats (hall st2)
  = geom <$> seats (_build_grid (CinemaHall.mk rows cols radius gap_x gap_y [])) /\
  config (hall st2) = (rows, cols, radius, gap_x, gap_y).
Proof.
  intros st2.
  destruct (run_ops_frame ops (snd (__init__ rows cols radius gap_x gap_y st)))
    as [Hc Hg].
  destruct (init_frame rows cols radius gap_x gap_y st) as [Hc0 Hg0].
  split; [unfold st2; rewrite Hg; exact Hg0|].
  unfold st2. rewrite Hc, Hc0.
  unfold _build_grid. destruct (_grid_origin _). reflexivity.
Qed.

(** C10. After construction, no sequence of [load_state], [save_state],
    [toggle_at] and [reset_all] calls changes the row, column, centre or
    radius of any seat, nor the number of seats or the configuration of the
    hall: they stay what [_build_grid] computed, so [booked] is the only
    field these operations can modify. *)
Theorem geometry_immutable rows cols radius gap_x gap_y st ops :
  let st1 := snd (__init__ rows cols radius gap_x gap_y st) in
  let st2 := run_ops ops st1 in
  geom <$> seats (hall st2) = geom <$> seats (hall st1) /\
  geom <$> seats (hall st1)
  = geom <$> seats (_build_grid (CinemaHall.mk rows cols radius gap_x gap_y [])) /\
  config (hall st2) = (rows, cols, radius, gap_x, gap_y).
Proof.
  intros st1 st2.
  destruct (run_ops_frame ops st1) as [Hc Hg].
  destruct (init_frame rows cols radius gap_x gap_y st) as [Hc0 Hg0].
  split; [exact Hg|]. split; [exact Hg0|].
  fold st1 in Hc0. unfold st2. rewrite Hc, Hc0.
  unfold _build_grid. destruct (_grid_origin _). reflexivity.
Qed.

(** ** Toggling *)

Section Toggle.
Variables px py : Q.

Lemma flip_flip s : flip (flip s) = s.
Proof. destruct s as [? ? ? ? ? []]; reflexivity. Qed.

Lemma flip_neq s : flip s <> s.
Proof. destruct s as [? ? ? ? ? []]; discriminate. Qed.

Lemma contains_flip s : Seat.contains (flip s) px py = Seat.contains s px py.
Proof. reflexivity. Qed.

Lemma toggle_first_miss l :
  Forall (miss px py) l -> toggle_first px py l = (false, l).
Proof.
  induction 1 as [|s l Hs _ IH]; [reflexivity|].
  simpl. unfold miss in Hs. rewrite Hs, IH. reflexivity.
Qed.

Lemma toggle_first_app l1 s l2 :
  Forall (miss px py) l1 -> hit px py s ->
  toggle_first px py (l1 ++ s :: l2) = (true, l1 ++ flip s :: l2).
Proof.
  intros Hl1 Hs. induction Hl1 as [|a l1 Ha _ IH]; simpl.
  - unfold hit in Hs. rewrite Hs. reflexivity.
  - unfold miss in Ha. rewrite Ha, IH. reflexivity.
Qed.

(** The scan runs over the reversed list: the seat it flips is the last
    one of the list that contains the point. *)
Lemma toggle_reverse_hit l1 s l2 :
  hit px py s -> Forall (miss px py) l2 ->
  toggle_first px py (reverse (l1 ++ s :: l2))
  = (true, reverse (l1 ++ flip s :: l2)).
Proof.
  intros Hs Hl2.
  rewrite !reverse_app, !reverse_cons, <- !app_assoc. simpl.
  apply toggle_first_app; [|exact Hs]. apply Forall_reverse, Hl2.
Qed.

Lemma toggle_reverse_miss l :
  Forall (miss px py) l -> toggle_first px py (reverse l) = (false, reverse l).
Proof. intros H. apply toggle_first_miss, Forall_reverse, H. Qed.

(** Either no seat contains the point, or the list splits at the last
    seat that does. *)
Lemma last_hit_split l :
  Forall (miss px py) l \/
  exists l1 s l2, l = l1 ++ s :: l2 /\ hit px py s /\ Forall (miss px py) l2.
Proof.
  induction l as [|a l [IH | (l1 & s & l2 & -> & Hs & Hl2)]].
  - left. constructor.
  - destruct (Seat.contains a px py) eqn:Ha.
    + right. exists [], a, l. auto.
    + left. constructor; assumption.
  - right. exists (a :: l1), s, l2. auto.
Qed.

Lemma with_hall_id st :
  with_hall st (set_seats (hall st) (seats (hall st))) = st.
Proof. destruct st as [[] ? ? ? ?]. reflexivity. Qed.

Lemma toggle_at_miss st :
  Forall (miss px py) (seats (hall st)) -> toggle_at px py st = (Ok false, st).
Proof.
  intros H. unfold toggle_at, CinemaHall.bind.
  rewrite (toggle_reverse_miss _ H), reverse_involutive, with_hall_id.
  reflexivity.
Qed.

Lemma toggle_at_hit st l1 s l2 :
  seats (hall st) = l1 ++ s :: l2 -> hit px py s -> Forall (miss px py) l2 ->
  let h' := set_seats (hall st) (l1 ++ flip s :: l2) in
  toggle_at px py st =
  if writable st
  then (Ok true,
        mkState h' (Json (snapshot h')) true
                (trace st ++ [Saved (snapshot h'); Drawn (seats h')])
                (failure st))
  else (Raise OSError, failed_save (with_hall st h') (snapshot h')).
Proof.
  intros Hl Hs Hl2 h'. unfold toggle_at, CinemaHall.bind.
  rewrite Hl, (toggle_reverse_hit _ _ _ Hs Hl2), reverse_involutive.
  fold h'. unfold save_state, draw_all, CinemaHall.ret. simpl.
  destruct (writable st); simpl; [|reflexivity].
  rewrite <- app_assoc. reflexivity.
Qed.

Lemma toggle_at_hit_hall st l1 s l2 :
  seats (hall st) = l1 ++ s :: l2 -> hit px py s -> Forall (miss px py) l2 ->
  hall (snd (toggle_at px py st)) = set_seats (hall st) (l1 ++ flip s :: l2) /\
  fst (toggle_at px py st) = if writable st then Ok true else Raise OSError.
Proof.
  intros Hl Hs Hl2. rewrite (toggle_at_hit st _ _ _ Hl Hs Hl2). cbv zeta.
  destruct (writable st); simpl; [split; reflexivity|].
  rewrite failed_save_hall. split; reflexivity.
Qed.

(** The index form of a split at the last hit. *)
Lemma split_at_last_hit (l : list Seat.t) i s :
  l !! i = Some s ->
  (forall j s', (i < j)%nat -> l !! j = Some s' -> miss px py s') ->
  l = take i l ++ s :: drop (S i) l /\ Forall (miss px py) (drop (S i) l).
Proof.
  intros Hi Hlater. split.
  - symmetry. apply take_drop_middle, Hi.
  - apply Forall_lookup. intros j s' Hj. rewrite lookup_drop in Hj.
    apply (Hlater (S i + j)%nat); [lia | exact Hj].
Qed.

Lemma insert_middle (l1 l2 : list Seat.t) s s' :
  <[length l1 := s']> (l1 ++ s :: l2) = l1 ++ s' :: l2.
Proof.
  rewrite insert_app_r_alt by lia.
  replace (length l1 - length l1)%nat with 0%nat by lia. reflexivity.
Qed.

End Toggle.

(** C3 (as amended). [toggle_at] flips the seat that comes first when the
    seats are scanned in reverse order of construction, that is the seat
    with the greatest index among those that contain the point: its
    [booked] flag is negated, everything else of it and every other seat
    stay as they were. The call then returns [True] when the snapshot is
    saved, and raises the [OSError] of [save_state] when it is not. There
    is such a seat as soon as some seat contains the point. If no seat
    contains the point the call returns [False] and changes nothing. In
    either case the seat list differs from the old one at one index at
    most, whatever the geometry of the seats. *)
Theorem toggle_at_first_hit st px py :
  let l := seats (hall st) in
  let o := fst (toggle_at px py st) in
  let st' := snd (toggle_at px py st) in
  let l' := seats (hall st') in
  (forall i s,
      l !! i = Some s -> Seat.contains s px py = true ->
      (forall j s', (i < j)%nat -> l !! j = Some s' ->
                    Seat.contains s' px py = false) ->
      l' = <[i := Seat.mk (Seat.row s) (Seat.col s) (Seat.x s) (Seat.y s)
                          (Seat.r s) (negb (Seat.booked s))]> l /\
      (writable st = true -> o = Ok true) /\
      (writable st = false -> o = Raise OSError)) /\
  ((exists s, s ∈ l /\ Seat.contains s px py = true) ->
   exists i s,
     l !! i = Some s /\ Seat.contains s px py = true /\
     (forall j s', (i < j)%nat -> l !! j = Some s' ->
                   Seat.contains s' px py = false)) /\
  ((forall s, s ∈ l -> Seat.contains s px py = false) ->
   o = Ok false /\ st' = st) /\
  (forall i j, l' !! i <> l !! i -> l' !! j <> l !! j -> i = j).
Proof.
  intros l o st' l'. split; [|split; [|split]].
  - intros i s Hi Hs Hlater.
    destruct (split_at_last_hit px py l i s Hi Hlater) as [Hsplit Hmiss].
    destruct (toggle_at_hit_hall px py st _ _ _ Hsplit Hs Hmiss) as [Hh Ho].
    unfold l', st', o. rewrite Hh, Ho.
    rewrite (insert_take_drop l i) by (eapply lookup_lt_Some; exact Hi).
    split; [reflexivity|]. split; intros ->; reflexivity.
  - intros (s0 & Hin & Hs0).
    destruct (last_hit_split px py l) as [Hmiss | (l1 & s & l2 & Hl & Hs & Hl2)].
    + rewrite Forall_forall in Hmiss. specialize (Hmiss _ Hin).
      unfold miss in Hmiss. congruence.
    + exists (length l1), s. rewrite Hl. split; [apply list_lookup_middle; reflexivity|].
      split; [exact Hs|]. intros j s' Hj Hlook.
      rewrite lookup_app_r in Hlook by lia.
      destruct (j - length l1)%nat as [|k] eqn:Hk; [lia|]. simpl in Hlook.
      rewrite Forall_lookup in Hl2. exact (Hl2 _ _ Hlook).
  - intros Hnone.
    assert (Hmiss : Forall (miss px py) l) by (apply Forall_forall; exact Hnone).
    unfold o, st'. rewrite (toggle_at_miss px py st Hmiss). auto.
  - intros i j Hi Hj.
    destruct (last_hit_split px py l) as [Hmiss | (l1 & s & l2 & Hl & Hs & Hl2)].
    + exfalso. apply Hi. unfold l', st'.
      rewrite (toggle_at_miss px py st Hmiss). reflexivity.
    + destruct (toggle_at_hit_hall px py st _ _ _ Hl Hs Hl2) as [Hh _].
      assert (Hl' : l' = <[length l1 := flip s]> l).
      { unfold l', st'. rewrite Hh, Hl, insert_middle. reflexivity. }
      rewrite Hl' in Hi, Hj.
      destruct (decide (length l1 = i)) as [<-|Hne];
        [|exfalso; apply Hi, list_lookup_insert_ne, Hne].
      destruct (decide (length l1 = j)) as [<-|Hne];
        [reflexivity|exfalso; apply Hj, list_lookup_insert_ne, Hne].
Qed.

(** Two seats that overlap: the point [(1/2, 0)] lies in both, and the one
    built last is the one that flips, from booked to free. *)
Lemma toggle_at_first_hit_witness :
  let a := Seat.mk 0 0 0 0 2 false in
  let b := Seat.mk 0 1 1 0 2 true in
  let st := mkState (CinemaHall.mk 1 2 2 0 0 [a; b]) Absent true [] AtOpen in
  seats (hall (snd (toggle_at (1 # 2) 0 st))) = [a; Seat.mk 0 1 1 0 2 false] /\
  (writable st = true -> fst (toggle_at (1 # 2) 0 st) = Ok true) /\
  (writable st = false -> fst (toggle_at (1 # 2) 0 st) = Raise OSError).
Proof.
  intros a b st.
  apply (proj1 (toggle_at_first_hit st (1 # 2) 0) 1%nat b).
  - reflexivity.
  - reflexivity.
  - intros [|[|[|j]]] s' Hj Hl; simpl in Hl; try lia; discriminate Hl.
Defined.

(** C3, the claim as stated fails: the seat contains the point, and the
    call does not return [True]. The file cannot be opened for writing, so
    [save_state] raises [OSError] and [toggle_at] lets it through, after
    the seat has been flipped. *)
Lemma toggle_at_returns_true_counterexample :
  let a := Seat.mk 0 0 0 0 2 false in
  let st := mkState (CinemaHall.mk 1 1 2 0 0 [a]) Absent false [] AtOpen in
  Seat.contains a 0 0 = true /\
  fst (toggle_at 0 0 st) = Raise OSError /\
  fst (toggle_at 0 0 st) <> Ok true /\
  Seat.booked <$> seats (hall (snd (toggle_at 0 0 st))) = [true].
Proof. repeat split; try reflexivity. discriminate. Qed.

(** C7. When some seat contains the point, two [toggle_at] calls in a row
    at that point flip one seat and then flip the same seat back: the seat
    list differs after the first call and the hall is the original hall
    again after the second. *)
Theorem toggle_at_twice st px py :
  (exists s, s ∈ seats (hall st) /\ Seat.contains s px py = true) ->
  let st1 := snd (toggle_at px py st) in
  let st2 := snd (toggle_at px py st1) in
  (exists i s,
      seats (hall st) !! i = Some s /\ Seat.contains s px py = true /\
      seats (hall st1) !! i = Some (flip s) /\
      Seat.booked (flip s) = negb (Seat.booked s) /\
      seats (hall st2) !! i = Some s) /\
  seats (hall st1) <> seats (hall st) /\
  hall st2 = hall st.
Proof.
  intros (s0 & Hin & Hs0) st1 st2.
  destruct (last_hit_split px py (seats (hall st)))
    as [Hmiss | (l1 & s & l2 & Hl & Hs & Hl2)].
  { rewrite Forall_forall in Hmiss. specialize (Hmiss _ Hin). congruence. }
  destruct (toggle_at_hit_hall px py st _ _ _ Hl Hs Hl2) as [H1 _].
  fold st1 in H1.
  assert (Hl1 : seats (hall st1) = l1 ++ flip s :: l2) by (rewrite H1; reflexivity).
  destruct (toggle_at_hit_hall px py st1 _ _ _ Hl1 Hs Hl2) as [H2' _].
  fold st2 in H2'.
  assert (H2 : hall st2 = hall st).
  { rewrite H2', flip_flip, H1. simpl. rewrite <- Hl.
    destruct (hall st); reflexivity. }
  split; [|split; [|exact H2]].
  - exists (length l1), s. rewrite H2, Hl1, Hl.
    rewrite !list_lookup_middle by reflexivity. auto.
  - rewrite Hl1, Hl. intros E. apply app_inv_head in E.
    inversion E as [E']. exact (flip_neq _ E').
Qed.

Lemma toggle_at_twice_witness :
  let a := Seat.mk 0 0 0 0 2 false in
  let b := Seat.mk 0 1 1 0 2 true in
  let st := mkState (CinemaHall.mk 1 2 2 0 0 [a; b]) Absent true [] AtOpen in
  let st1 := snd (toggle_at (1 # 2) 0 st) in
  let st2 := snd (toggle_at (1 # 2) 0 st1) in
  seats (hall st1) <> seats (hall st) /\ hall st2 = hall st.
Proof.
  intros a b st.
  apply (toggle_at_twice st (1 # 2) 0).
  exists a. split; [left | reflexivity].
Defined.

(** ** Reset and the snapshot on disk *)

Lemma for_seats_ok (f : Seat.t -> Seat.t) l :
  for_seats (fun s => (Ok tt, f s)) l = (Ok tt, f <$> l).
Proof.
  induction l as [|s l IH]; [reflexivity|]. simpl. rewrite IH. reflexivity.
Qed.

Lemma reset_all_eq st :
  let h' := set_seats (hall st)
                      ((fun s => Seat.set_booked s false) <$> seats (hall st)) in
  reset_all st =
  if writable st
  then (Ok tt,
        mkState h' (Json (snapshot h')) true
                (trace st ++ [Saved (snapshot h'); Drawn (seats h')])
                (failure st))
  else (Raise OSError, failed_save (with_hall st h') (snapshot h')).
Proof.
  intros h'. unfold reset_all, CinemaHall.bind, each_seat.
  rewrite for_seats_ok. fold h'. unfold save_state, draw_all. simpl.
  destruct (writable st); simpl; [|reflexivity].
  rewrite <- app_assoc. reflexivity.
Qed.

Lemma set_booked_false_id s :
  Seat.booked s = false -> Seat.set_booked s false = s.
Proof. destruct s; simpl; intros ->; reflexivity. Qed.

Lemma clear_free_id (l : list Seat.t) :
  Forall (fun s => Seat.booked s = false) l ->
  (fun s => Seat.set_booked s false) <$> l = l.
Proof.
  induction 1 as [|s l Hs _ IH]; [reflexivity|].
  rewrite fmap_cons, IH, (set_booked_false_id s Hs). reflexivity.
Qed.

(** C5. After [reset_all], every seat of the hall is free, whatever the
    flags were before; the seats are the same seats (same number, same
    identity and geometry); and on a hall that was already all free the
    call leaves the hall exactly as it was. *)
Theorem reset_all_clears st :
  let st' := snd (reset_all st) in
  Forall (fun s => Seat.booked s = false) (seats (hall st')) /\
  geom <$> seats (hall st') = geom <$> seats (hall st) /\
  (Forall (fun s => Seat.booked s = false) (seats (hall st)) ->
   hall st' = hall st).
Proof.
  intros st'.
  assert (H : hall st' = set_seats (hall st)
                ((fun s => Seat.set_booked s false) <$> seats (hall st))).
  { unfold st'. rewrite reset_all_eq. cbv zeta.
    destruct (writable st); [reflexivity|]. apply failed_save_hall. }
  split; [|split].
  - rewrite H. simpl. apply Forall_fmap, Forall_forall. reflexivity.
  - apply (reset_all_frame st).
  - intros Hfree. rewrite H, (clear_free_id _ Hfree).
    destruct (hall st); reflexivity.
Qed.

Lemma reset_all_clears_witness :
  let a := Seat.mk 0 0 0 0 2 false in
  let b := Seat.mk 0 1 1 0 2 false in
  let st := mkState (CinemaHall.mk 1 2 2 0 0 [a; b]) Absent true [] AtOpen in
  Forall (fun s => Seat.booked s = false) (seats (hall st)) /\
  hall (snd (reset_all st)) = hall st.
Proof.
  intros a b st.
  assert (Hfree : Forall (fun s => Seat.booked s = false) (seats (hall st)))
    by (repeat constructor).
  split; [exact Hfree|].
  exact (proj2 (proj2 (reset_all_clears st)) Hfree).
Defined.

(** C4. A [toggle_at] call that returns after changing a seat, and every
    [reset_all] call that returns, has replaced the content of the file by
    [{"seats": [s.to_dict() for s in seats]}] for the seats as the call
    leaves them, and the write is the first thing the call did to the
    outside, before the redraw. A [toggle_at] call that changes no seat
    returns [False] and touches neither the file nor anything else. Both
    calls return whenever the file can be written. *)
Theorem mutations_persist st px py :
  let t := toggle_at px py st in
  let r := reset_all st in
  let saved (s : State) :=
    PDict [("seats"%string, PList (Seat.to_dict <$> seats (hall s)))] in
  (forall b, fst t = Ok b -> seats (hall (snd t)) <> seats (hall st) ->
     file (snd t) = Json (saved (snd t)) /\
     trace (snd t)
     = trace st ++ [Saved (saved (snd t)); Drawn (seats (hall (snd t)))]) /\
  (seats (hall (snd t)) = seats (hall st) ->
     fst t = Ok false /\ file (snd t) = file st /\ trace (snd t) = trace st) /\
  (fst r = Ok tt ->
     file (snd r) = Json (saved (snd r)) /\
     trace (snd r)
     = trace st ++ [Saved (saved (snd r)); Drawn (seats (hall (snd r)))]) /\
  (writable st = true -> (exists b, fst t = Ok b) /\ fst r = Ok tt).
Proof.
  intros t r saved.
  assert (Ht : (t = (Ok false, st)) \/
               (exists h', seats h' <> seats (hall st) /\
                  t = if writable st
                      then (Ok true,
                            mkState h' (Json (snapshot h')) true
                              (trace st ++ [Saved (snapshot h'); Drawn (seats h')])
                (failure st))
                      else (Raise OSError, failed_save (with_hall st h') (snapshot h')))).
  { destruct (last_hit_split px py (seats (hall st)))
      as [Hmiss | (l1 & s & l2 & Hl & Hs & Hl2)].
    - left. apply toggle_at_miss, Hmiss.
    - right. eexists. split; [|apply (toggle_at_hit px py st _ _ _ Hl Hs Hl2)].
      simpl. rewrite Hl. intros E. apply app_inv_head in E.
      inversion E as [E']. exact (flip_neq _ E'). }
  pose proof (reset_all_eq st) as Hr. simpl in Hr. fold r in Hr.
  split; [|split; [|split]].
  - intros b Hb Hchg. destruct Ht as [-> | (h' & _ & ->)].
    + exfalso. apply Hchg. reflexivity.
    + destruct (writable st); [split; reflexivity | discriminate Hb].
  - intros Hsame. destruct Ht as [-> | (h' & Hne & Ht)]; [auto|].
    exfalso. apply Hne. rewrite <- Hsame, Ht.
    destruct (writable st); [reflexivity|].
    simpl. rewrite failed_save_hall. reflexivity.
  - intros Hok. rewrite Hr in *.
    destruct (writable st); [split; reflexivity | discriminate Hok].
  - intros Hw. rewrite Hr, Hw. split; [|reflexivity].
    destruct Ht as [-> | (h' & _ & ->)]; [exists false; reflexivity|].
    rewrite Hw. exists true. reflexivity.
Qed.

(** The scenario of the specification: a 2 x 2 hall with radius 10 and no
    file; a click on the centre of seat (0,1). *)
Lemma mutations_persist_witness :
  let st0 := mkState (CinemaHall.mk 0 0 0 0 0 []) Absent true [] AtOpen in
  let st := snd (__init__ 2 2 10 18 24 st0) in
  let t := toggle_at 19 (-47) st in
  fst t = Ok true /\
  file (snd t)
  = Json (PDict [("seats"%string,
                  PList (Seat.to_dict <$> seats (hall (snd t))))]) /\
  Seat.booked <$> seats (hall (snd t)) = [false; true; false; false].
Proof.
  intros st0 st t.
  assert (Hok : fst t = Ok true) by reflexivity.
  assert (Hchg : seats (hall (snd t)) <> seats (hall st)) by discriminate.
  split; [exact Hok|]. split; [|reflexivity].
  exact (proj1 (proj1 (mutations_persist st 19 (-47)) true Hok Hchg)).
Defined.

(** ** The dict keyed by [(row, col)] *)

Lemma eq_int a b : Py.eq (PInt a) (PInt b) = bool_decide (a = b).
Proof.
  unfold Py.eq, num. case_bool_decide as H.
  - subst. apply Qeq_bool_iff. reflexivity.
  - destruct (Qeq_bool (inject_Z a) (inject_Z b)) eqn:E; [|reflexivity].
    apply Qeq_bool_iff in E. unfold Qeq in E. simpl in E. lia.
Qed.

Lemma key_eq_ikey p q : key_eq (ikey p) (ikey q) = bool_decide (p = q).
Proof.
  destruct p as [a b], q as [c d]. unfold key_eq, ikey. cbn [fst snd].
  rewrite !eq_int. repeat case_bool_decide; simpl; congruence.
Qed.

Lemma int_keyed_set p v d : int_keyed d -> int_keyed (tupdict_set (ikey p) v d).
Proof.
  induction 1 as [|[k w] d Hk Hd IH]; simpl.
  - repeat constructor. exists p. reflexivity.
  - destruct (key_eq k (ikey p)); constructor; assumption.
Qed.

Lemma tupdict_get_set p q v d :
  int_keyed d ->
  tupdict_get (ikey p) (tupdict_set (ikey q) v d)
  = if decide (q = p) then Some v else tupdict_get (ikey p) d.
Proof.
  induction 1 as [|[k w] d [k0 Hk] _ IH]; simpl in *.
  - rewrite key_eq_ikey. case_bool_decide; case_decide; congruence.
  - subst k. rewrite (key_eq_ikey k0 q).
    case_bool_decide as Hq; simpl; rewrite (key_eq_ikey k0 p).
    + subst k0. case_bool_decide; case_decide; congruence.
    + rewrite IH. case_bool_decide; case_decide; congruence.
Qed.

Lemma int_keyed_set_entries es acc : int_keyed acc -> int_keyed (set_entries es acc).
Proof.
  revert acc. induction es as [|d es IH]; intros acc Hacc; [exact Hacc|].
  apply IH, int_keyed_set, Hacc.
Qed.

Lemma get_set_entries_notin p es acc :
  int_keyed acc -> p ∉ key_of <$> es ->
  tupdict_get (ikey p) (set_entries es acc) = tupdict_get (ikey p) acc.
Proof.
  revert acc. induction es as [|d es IH]; intros acc Hacc Hp; [reflexivity|].
  rewrite fmap_cons, not_elem_of_cons in Hp. destruct Hp as [Hne Hp].
  unfold set_entries. simpl. fold (set_entries es (tupdict_set (ikey (key_of d)) d acc)).
  rewrite IH by (auto using int_keyed_set).
  rewrite tupdict_get_set by assumption. case_decide; congruence.
Qed.

Lemma get_set_entries_in d es acc :
  int_keyed acc -> NoDup (key_of <$> es) -> d ∈ es ->
  tupdict_get (ikey (key_of d)) (set_entries es acc) = Some d.
Proof.
  revert acc. induction es as [|e es IH]; intros acc Hacc Hnd Hin.
  - inversion Hin.
  - rewrite fmap_cons in Hnd. apply NoDup_cons in Hnd as [Hfresh Hnd].
    unfold set_entries. simpl. fold (set_entries es (tupdict_set (ikey (key_of e)) e acc)).
    apply elem_of_cons in Hin as [-> | Hin].
    + rewrite get_set_entries_notin by (auto using int_keyed_set).
      rewrite tupdict_get_set by assumption. case_decide; congruence.
    + apply IH; auto using int_keyed_set.
Qed.

(** With pairwise distinct keys, what a key is bound to does not depend on
    the order of the entries. *)
Lemma get_set_entries_perm p es es' :
  NoDup (key_of <$> es) -> es ≡ₚ es' ->
  tupdict_get (ikey p) (set_entries es []) = tupdict_get (ikey p) (set_entries es' []).
Proof.
  intros Hnd Hperm.
  assert (Hnd' : NoDup (key_of <$> es')) by (rewrite <- Hperm; exact Hnd).
  assert (Hnil : int_keyed []) by constructor.
  destruct (decide (p ∈ key_of <$> es)) as [Hin | Hout].
  - apply list_elem_of_fmap in Hin as (d & -> & Hd).
    rewrite !get_set_entries_in; auto. rewrite <- Hperm. exact Hd.
  - rewrite !get_set_entries_notin; auto. rewrite <- Hperm. exact Hout.
Qed.

Lemma get_set_entries_key p d es acc :
  int_keyed acc ->
  tupdict_get (ikey p) (set_entries es acc) = Some d ->
  (d ∈ es /\ key_of d = p) \/ tupdict_get (ikey p) acc = Some d.
Proof.
  revert acc. induction es as [|e es IH]; intros acc Hacc Hget; [right; exact Hget|].
  change (set_entries (e :: es) acc)
    with (set_entries es (tupdict_set (ikey (key_of e)) e acc)) in Hget.
  destruct (IH _ (int_keyed_set _ _ _ Hacc) Hget) as [[Hin Hk] | Hset].
  - left. split; [right; exact Hin | exact Hk].
  - rewrite tupdict_get_set in Hset by exact Hacc.
    case_decide as Hp; [|right; exact Hset].
    left. injection Hset as <-. split; [left | exact Hp].
Qed.

Lemma get_set_entries_some p es acc :
  int_keyed acc -> p ∈ key_of <$> es ->
  exists d, tupdict_get (ikey p) (set_entries es acc) = Some d.
Proof.
  revert acc. induction es as [|e es IH]; intros acc Hacc Hin; [inversion Hin|].
  change (set_entries (e :: es) acc)
    with (set_entries es (tupdict_set (ikey (key_of e)) e acc)).
  destruct (decide (p ∈ key_of <$> es)) as [Hes | Hes].
  - apply IH; [apply int_keyed_set, Hacc | exact Hes].
  - rewrite fmap_cons in Hin. apply elem_of_cons in Hin as [-> | Hin];
      [|contradiction].
    exists e. rewrite get_set_entries_notin by (auto using int_keyed_set).
    rewrite tupdict_get_set by exact Hacc. case_decide; congruence.
Qed.

Lemma state_of_entries es acc :
  Forall (fun d => is_Some (entry_id d)) es ->
  state_of es acc = Ok (set_entries es acc).
Proof.
  intros H. revert acc. induction H as [|d es [p Hd] _ IH]; intros acc; [reflexivity|].
  unfold set_entries. simpl. fold (set_entries es (tupdict_set (ikey (key_of d)) d acc)).
  unfold key_of. rewrite Hd. simpl.
  destruct d as [| | | | | |kvs]; try discriminate Hd. simpl in *.
  destruct (dict_lookup "row" kvs) as [[| |r| | | |]|]; try discriminate Hd.
  destruct (dict_lookup "col" kvs) as [[| |c| | | |]|]; try discriminate Hd.
  simpl. injection Hd as <-. apply IH.
Qed.

Lemma well_formed_entry_id d : well_formed_entry d = true -> is_Some (entry_id d).
Proof.
  destruct d as [| | | | | |kvs]; try discriminate. simpl.
  destruct (dict_lookup "row" kvs) as [[| |r| | | |]|]; try discriminate.
  destruct (dict_lookup "col" kvs) as [[| |c| | | |]|]; try discriminate.
  intros _. eexists. reflexivity.
Qed.

Lemma for_seats_ext body body' l :
  (forall s, s ∈ l -> body s = body' s) -> for_seats body l = for_seats body' l.
Proof.
  induction l as [|s l IH]; intros H; [reflexivity|].
  simpl. rewrite <- (H s) by left.
  rewrite IH by (intros; apply H; right; assumption). reflexivity.
Qed.

(** [load_state] on a document whose ["seats"] is a list of entries with
    integer [row] and [col]. *)
Lemma load_state_entries st kvs es :
  file st = Json (PDict kvs) ->
  dict_lookup "seats" kvs = Some (PList es) ->
  Forall (fun d => is_Some (entry_id d)) es ->
  load_state st = each_seat (load_seat (set_entries es [])) st.
Proof.
  intros Hf Hl Hes. unfold load_state, CinemaHall.bind, read, lift.
  rewrite Hf. simpl. rewrite Hl. simpl.
  rewrite (state_of_entries es [] Hes). reflexivity.
Qed.

(** ** Loading *)

Lemma load_state_unparsable st :
  file st = Absent \/ file st = Unreadable \/ file st = NotJSON ->
  load_state st = (Ok tt, st).
Proof.
  unfold load_state, CinemaHall.bind, read.
  intros [H | [H | H]]; rewrite H; reflexivity.
Qed.

Lemma for_seats_fst_ok body l :
  (forall s, fst (body s) = Ok tt) -> fst (for_seats body l) = Ok tt.
Proof.
  intros H. induction l as [|s l IH]; [reflexivity|].
  simpl. specialize (H s). destruct (body s) as [[[]|e] s']; [|discriminate H].
  destruct (for_seats body l). exact IH.
Qed.

Lemma load_seat_key state s :
  load_seat state s =
  match tupdict_get (ikey (seat_id s)) state with
  | Some d => if truth d then Seat.from_dict s d else (Ok tt, s)
  | None => (Ok tt, s)
  end.
Proof. reflexivity. Qed.

Lemma well_formed_entry_inv d :
  well_formed_entry d = true ->
  exists kvs b, d = PDict kvs /\ entry_id d = Some (key_of d) /\
                dict_lookup "booked" kvs = Some (PBool b) /\ truth d = true.
Proof.
  destruct d as [| | | | | |kvs]; try discriminate. unfold key_of. simpl.
  destruct (dict_lookup "row" kvs) as [[| |r| | | |]|] eqn:Hr; try discriminate.
  destruct (dict_lookup "col" kvs) as [[| |c| | | |]|] eqn:Hc; try discriminate.
  destruct (dict_lookup "booked" kvs) as [[|b| | | | |]|] eqn:Hb; try discriminate.
  intros _. exists kvs, b.
  split; [reflexivity|]. split; [reflexivity|]. split; [exact Hb|].
  destruct kvs; [discriminate Hr | reflexivity].
Qed.

(** What [load_seat] does with an entry of the documented form. *)
Lemma load_seat_entry state s d :
  tupdict_get (ikey (seat_id s)) state = Some d ->
  well_formed_entry d = true ->
  exists b, getitem d "booked" = Ok (PBool b) /\
            load_seat state s = (Ok tt, Seat.set_booked s b).
Proof.
  intros Hget Hwf.
  destruct (well_formed_entry_inv d Hwf) as (kvs & b & -> & _ & Hb & Ht).
  exists b. rewrite load_seat_key, Hget, Ht.
  unfold Seat.from_dict, getitem, get. rewrite Hb. auto.
Qed.

Lemma load_seat_ok es s :
  Forall (fun d => well_formed_entry d = true) es ->
  fst (load_seat (set_entries es []) s) = Ok tt.
Proof.
  intros Hwf.
  destruct (tupdict_get (ikey (seat_id s)) (set_entries es [])) as [d|] eqn:Hget.
  - destruct (get_set_entries_key _ _ _ _ (Forall_nil_2 _) Hget)
      as [[Hin _] | Hnil]; [|discriminate Hnil].
    rewrite Forall_forall in Hwf.
    destruct (load_seat_entry _ s d Hget (Hwf d Hin)) as (b & _ & ->).
    reflexivity.
  - rewrite load_seat_key, Hget. reflexivity.
Qed.

(** When the entries that share a key share their [booked] field, what a
    seat is loaded with does not depend on the order of the entries. *)
Lemma load_seat_perm es es' s :
  Forall (fun d => well_formed_entry d = true) es ->
  (forall d1 d2, d1 ∈ es -> d2 ∈ es -> entry_id d1 = entry_id d2 ->
                 getitem d1 "booked" = getitem d2 "booked") ->
  es ≡ₚ es' ->
  load_seat (set_entries es' []) s = load_seat (set_entries es []) s.
Proof.
  intros Hwf Hagree Hperm. rewrite Forall_forall in Hwf.
  destruct (decide (seat_id s ∈ key_of <$> es)) as [Hin | Hout].
  - destruct (get_set_entries_some _ es [] (Forall_nil_2 _) Hin) as [d Hd].
    assert (Hin' : seat_id s ∈ key_of <$> es') by (rewrite <- Hperm; exact Hin).
    destruct (get_set_entries_some _ es' [] (Forall_nil_2 _) Hin') as [d' Hd'].
    destruct (get_set_entries_key _ _ _ _ (Forall_nil_2 _) Hd)
      as [[Hdin Hk] | Hnil]; [|discriminate Hnil].
    destruct (get_set_entries_key _ _ _ _ (Forall_nil_2 _) Hd')
      as [[Hdin' Hk'] | Hnil]; [|discriminate Hnil].
    rewrite <- Hperm in Hdin'.
    destruct (load_seat_entry _ s d Hd (Hwf d Hdin)) as (b & Hb & ->).
    destruct (load_seat_entry _ s d' Hd' (Hwf d' Hdin')) as (b' & Hb' & ->).
    destruct (well_formed_entry_inv d (Hwf d Hdin)) as (_ & _ & _ & Hid & _).
    destruct (well_formed_entry_inv d' (Hwf d' Hdin')) as (_ & _ & _ & Hid' & _).
    assert (E : getitem d "booked" = getitem d' "booked")
      by (apply Hagree; [assumption | assumption | congruence]).
    rewrite Hb, Hb' in E. injection E as ->. reflexivity.
  - assert (Hout' : seat_id s ∉ key_of <$> es') by (rewrite <- Hperm; exact Hout).
    rewrite !load_seat_key, !get_set_entries_notin by (auto; constructor).
    reflexivity.
Qed.

(** C8 (as amended). For a snapshot of the documented form in which the
    entries that name the same [(row, col)] carry the same [booked] value
    (in particular when no two entries name the same seat), the order of
    the ["seats"] list does not matter: [load_state] returns and leaves
    the same hall for every permutation of the list, whatever else the two
    documents carry at top level. *)
Theorem load_order_irrelevant st kvs kvs' es es' :
  dict_lookup "seats" kvs = Some (PList es) ->
  dict_lookup "seats" kvs' = Some (PList es') ->
  Forall (fun d => well_formed_entry d = true) es ->
  (forall d1 d2, d1 ∈ es -> d2 ∈ es -> entry_id d1 = entry_id d2 ->
                 getitem d1 "booked" = getitem d2 "booked") ->
  es ≡ₚ es' ->
  let r := load_state (with_file st (Json (PDict kvs))) in
  let r' := load_state (with_file st (Json (PDict kvs'))) in
  fst r = Ok tt /\ fst r' = Ok tt /\ hall (snd r) = hall (snd r').
Proof.
  intros Hl Hl' Hwf Hagree Hperm r r'.
  assert (Hwf' : Forall (fun d => well_formed_entry d = true) es')
    by (rewrite <- Hperm; exact Hwf).
  assert (Hid : forall l, Forall (fun d => well_formed_entry d = true) l ->
                          Forall (fun d => is_Some (entry_id d)) l).
  { intros l H. eapply Forall_impl; [exact H|].
    intros d. apply well_formed_entry_id. }
  unfold r, r'.
  rewrite (load_state_entries (with_file st (Json (PDict kvs))) kvs es
             eq_refl Hl (Hid _ Hwf)).
  rewrite (load_state_entries (with_file st (Json (PDict kvs'))) kvs' es'
             eq_refl Hl' (Hid _ Hwf')).
  unfold each_seat. simpl.
  rewrite (for_seats_ext (load_seat (set_entries es' []))
                         (load_seat (set_entries es [])) (seats (hall st)))
    by (intros s _; apply load_seat_perm; assumption).
  pose proof (for_seats_fst_ok (load_seat (set_entries es [])) (seats (hall st))
                (fun s => load_seat_ok es s Hwf)) as Hok.
  destruct (for_seats _ _) as [o l]. simpl in *. auto.
Qed.

(** Three entries, two of them for seat (0,0) and both booked: they agree,
    so the order makes no difference. *)
Lemma load_order_irrelevant_witness :
  let e1 := PDict [("row"%string, PInt 0); ("col"%string, PInt 0);
                   ("booked"%string, PBool true)] in
  let e2 := PDict [("row"%string, PInt 0); ("col"%string, PInt 1);
                   ("booked"%string, PBool false)] in
  let e3 := PDict [("row"%string, PInt 0); ("col"%string, PInt 0);
                   ("booked"%string, PBool true); ("note"%string, PNone)] in
  let st := mkState (_build_grid (CinemaHall.mk 1 2 16 18 24 [])) Absent true []
                    AtOpen in
  let r := load_state (with_file st (Json (PDict [("seats"%string,
                                                   PList [e1; e2; e3])]))) in
  let r' := load_state (with_file st (Json (PDict [("v"%string, PInt 2);
                                                   ("seats"%string,
                                                    PList [e3; e1; e2])]))) in
  fst r = Ok tt /\ fst r' = Ok tt /\ hall (snd r) = hall (snd r').
Proof.
  intros e1 e2 e3 st.
  apply (load_order_irrelevant st
           [("seats"%string, PList [e1; e2; e3])]
           [("v"%string, PInt 2); ("seats"%string, PList [e3; e1; e2])]
           [e1; e2; e3] [e3; e1; e2]).
  - reflexivity.
  - reflexivity.
  - repeat constructor.
  - intros d1 d2 H1 H2.
    repeat (apply elem_of_cons in H1 as [-> | H1]); [| | |inversion H1];
      repeat (apply elem_of_cons in H2 as [-> | H2]);
      try (inversion H2; fail); try reflexivity; discriminate.
  - change [e3; e1; e2] with ([e3] ++ [e1; e2]).
    change [e1; e2; e3] with ([e1; e2] ++ [e3]).
    apply Permutation_app_comm.
Defined.

(** C8, the claim as stated fails: two entries for seat (0,0) with
    different flags; the entry that comes last in the list wins, so the
    two orders of the same list load different flags. *)
Lemma load_order_counterexample :
  let e1 := PDict [("row"%string, PInt 0); ("col"%string, PInt 0);
                   ("booked"%string, PBool true)] in
  let e2 := PDict [("row"%string, PInt 0); ("col"%string, PInt 0);
                   ("booked"%string, PBool false)] in
  let st es := mkState (_build_grid (CinemaHall.mk 1 1 16 18 24 []))
                       (Json (PDict [("seats"%string, PList es)])) true []
                       AtOpen in
  [e1; e2] ≡ₚ [e2; e1] /\
  forallb well_formed_entry [e1; e2] = true /\
  fst (load_state (st [e1; e2])) = Ok tt /\
  fst (load_state (st [e2; e1])) = Ok tt /\
  Seat.booked <$> seats (hall (snd (load_state (st [e1; e2])))) = [false] /\
  Seat.booked <$> seats (hall (snd (load_state (st [e2; e1])))) = [true].
Proof.
  intros e1 e2 st. split; [apply Permutation_swap|].
  repeat split; reflexivity.
Qed.

(** ** Saving, then loading into a fresh hall *)

Lemma build_grid_config h :
  _build_grid (CinemaHall.mk (rows h) (cols h) (radius h) (gap_x h) (gap_y h) [])
  = _build_grid h.
Proof. destruct h. reflexivity. Qed.

Lemma build_grid_set_seats h l : set_seats (_build_grid h) l = set_seats h l.
Proof. unfold _build_grid. destruct (_grid_origin h). reflexivity. Qed.

Lemma set_seats_id h : set_seats h (seats h) = h.
Proof. destruct h. reflexivity. Qed.

Lemma grid_hall_NoDup h : grid_hall h -> NoDup (seat_id <$> seats h).
Proof.
  intros H. rewrite (geom_seat_id _ _ H), build_grid_ids. apply NoDup_grid_ids.
Qed.

(** Every hall the program can reach is a grid hall. *)
Lemma reachable_grid_hall rows cols radius gap_x gap_y st ops :
  grid_hall (hall (run_ops ops (snd (__init__ rows cols radius gap_x gap_y st)))).
Proof.
  destruct (geometry_frame_of_run rows cols radius gap_x gap_y st ops)
    as (Hg & Hc).
  unfold grid_hall. rewrite Hg.
  rewrite <- (build_grid_config (hall (run_ops _ _))).
  injection Hc as -> -> -> -> ->. reflexivity.
Qed.

Lemma seat_eq_geom s0 s :
  geom s0 = geom s -> Seat.set_booked s0 (Seat.booked s) = s.
Proof. destruct s0, s. unfold geom. simpl. intros [= -> -> -> -> ->]. reflexivity. Qed.

Lemma for_seats_rebuild body (l0 l : list Seat.t) :
  geom <$> l0 = geom <$> l ->
  (forall s0 s, s ∈ l -> geom s0 = geom s -> body s0 = (Ok tt, s)) ->
  for_seats body l0 = (Ok tt, l).
Proof.
  revert l. induction l0 as [|s0 l0 IH]; intros [|s l] Hg Hbody;
    try discriminate Hg; [reflexivity|].
  rewrite !fmap_cons in Hg.
  assert (Hs : geom s0 = geom s) by exact (f_equal (hd (geom s0)) Hg).
  assert (Hg' : geom <$> l0 = geom <$> l) by exact (f_equal (@tl _) Hg).
  simpl. rewrite (Hbody s0 s (list_elem_of_here _ _) Hs).
  rewrite (IH l Hg'); [reflexivity|].
  intros s0' s' Hin. apply Hbody, list_elem_of_further, Hin.
Qed.

(** Loading the snapshot of the seats [l] into seats of the same geometry
    gives [l] back. *)
Lemma load_snapshot_seats (l0 l : list Seat.t) :
  NoDup (seat_id <$> l) -> geom <$> l0 = geom <$> l ->
  for_seats (load_seat (set_entries (Seat.to_dict <$> l) [])) l0 = (Ok tt, l).
Proof.
  intros Hnd Hg. apply for_seats_rebuild; [exact Hg|].
  intros s0 s Hs Hgs. rewrite load_seat_key.
  assert (Hid : seat_id s0 = key_of (Seat.to_dict s)).
  { destruct s0, s. unfold geom in Hgs. simpl in Hgs.
    injection Hgs as -> -> _ _ _. reflexivity. }
  rewrite Hid, get_set_entries_in.
  - unfold Seat.from_dict. simpl. rewrite (seat_eq_geom _ _ Hgs). reflexivity.
  - constructor.
  - rewrite <- list_fmap_compose. exact Hnd.
  - apply list_elem_of_fmap. exists s. auto.
Qed.

Lemma snapshot_entries (l : list Seat.t) :
  Forall (fun d => is_Some (entry_id d)) (Seat.to_dict <$> l).
Proof. apply Forall_fmap, Forall_forall. intros s _. eexists. reflexivity. Qed.

(** C2. For a hall laid out by its configuration (as every hall the
    program reaches is) and a file that can be written: [save_state]
    returns; constructing a hall of the same configuration afterwards,
    which builds the grid with every seat free and loads the file, gives
    every seat the [booked] value it had in the saved hall; and so does a
    further [load_state] on that hall. The loaded hall is the saved one. *)
Theorem save_load_roundtrip st :
  grid_hall (hall st) -> writable st = true ->
  let h := hall st in
  let s1 := save_state st in
  let s2 := __init__ (rows h) (cols h) (radius h) (gap_x h) (gap_y h) (snd s1) in
  let s3 := load_state (snd s2) in
  fst s1 = Ok tt /\ fst s2 = Ok tt /\ fst s3 = Ok tt /\
  Seat.booked <$> seats (hall (snd s2)) = Seat.booked <$> seats h /\
  Seat.booked <$> seats (hall (snd s3)) = Seat.booked <$> seats h /\
  hall (snd s2) = h /\ hall (snd s3) = h.
Proof.
  intros Hgrid Hw h s1 s2 s3.
  pose proof (grid_hall_NoDup _ Hgrid) as Hnd. fold h in Hnd.
  set (st1 := mkState h (Json (snapshot h)) true (trace st ++ [Saved (snapshot h)])
                      (failure st)).
  assert (H1 : s1 = (Ok tt, st1)).
  { unfold s1, save_state. rewrite Hw. reflexivity. }
  assert (Hload : forall h0,
             geom <$> seats h0 = geom <$> seats h ->
             set_seats h0 (seats h) = h ->
             load_state (with_hall st1 h0) = (Ok tt, st1)).
  { intros h0 Hg Hh0.
    rewrite (load_state_entries (with_hall st1 h0) _ (Seat.to_dict <$> seats h)
               eq_refl eq_refl (snapshot_entries _)).
    unfold each_seat. simpl.
    rewrite (load_snapshot_seats _ _ Hnd Hg), Hh0. reflexivity. }
  assert (H2 : s2 = (Ok tt, st1)).
  { unfold s2. rewrite H1. unfold __init__, CinemaHall.bind. simpl.
    rewrite build_grid_config. apply Hload.
    - symmetry. exact Hgrid.
    - rewrite build_grid_set_seats. apply set_seats_id. }
  assert (H3 : s3 = (Ok tt, st1)).
  { unfold s3. rewrite H2. simpl.
    change st1 with (with_hall st1 h) at 1.
    apply Hload; [reflexivity | apply set_seats_id]. }
  rewrite H1, H2, H3. simpl. repeat split; reflexivity.
Qed.

Lemma save_load_roundtrip_witness :
  let st0 := mkState (CinemaHall.mk 0 0 0 0 0 []) Absent true [] AtOpen in
  let st := run_ops [ToggleAt 19 (-47); ToggleAt (-19) (-3)]
                    (snd (__init__ 2 2 10 18 24 st0)) in
  let s1 := save_state st in
  let s2 := __init__ 2 2 10 18 24 (snd s1) in
  Seat.booked <$> seats (hall st) = [false; true; true; false] /\
  fst s2 = Ok tt /\
  Seat.booked <$> seats (hall (snd s2)) = Seat.booked <$> seats (hall st).
Proof.
  intros st0 st s1 s2.
  split; [reflexivity|].
  assert (Hgrid : grid_hall (hall st)) by reflexivity.
  assert (Hw : writable st = true) by reflexivity.
  pose proof (save_load_roundtrip st Hgrid Hw) as (_ & H2 & _ & Hb & _).
  split; [exact H2 | exact Hb].
Defined.

(** ** [Seat.from_dict] *)

(** C9 (as amended). On an object, [from_dict] returns and sets [booked]
    to the truth value Python gives the ["booked"] field, touching nothing
    else: [False] when the field is absent; the field itself when it is a
    boolean; and, for any value of the field, [False] exactly when the
    value is [None], [False], the integer 0, a float zero, the empty
    string, the empty list or the empty object, and [True] for every other
    value. *)
Theorem from_dict_truthiness s kvs :
  let s' := snd (Seat.from_dict s (PDict kvs)) in
  fst (Seat.from_dict s (PDict kvs)) = Ok tt /\
  geom s' = geom s /\
  (dict_lookup "booked" kvs = None -> Seat.booked s' = false) /\
  (forall b, dict_lookup "booked" kvs = Some (PBool b) -> Seat.booked s' = b) /\
  (forall v, dict_lookup "booked" kvs = Some v ->
     (Seat.booked s' = false <->
      v = PNone \/ v = PBool false \/ v = PInt 0 \/
      (exists e, v = PFloat (FFinite 0 e)) \/
      v = PStr "" \/ v = PList [] \/ v = PDict [])).
Proof.
  intros s'. unfold s', Seat.from_dict. simpl.
  destruct (dict_lookup "booked" kvs) as [v|]; simpl.
  - split; [reflexivity|]. split; [reflexivity|]. split; [discriminate|].
    split; [intros b [= ->]; reflexivity|].
    intros w [= <-].
    destruct v as [|[]|n|[| |m e]|str|[|a l]|[|a l]]; simpl;
      try (split; [discriminate | intros H; repeat destruct H as [H|H];
                                   try discriminate H; destruct H; discriminate]);
      try (split; [tauto | reflexivity]).
    + destruct (Z.eqb_spec n 0) as [->|Hn]; simpl.
      * split; [tauto | reflexivity].
      * split; [discriminate|]. intros H.
        repeat destruct H as [H|H]; try discriminate H;
          [congruence | destruct H; discriminate].
    + destruct (Z.eqb_spec m 0) as [->|Hm]; simpl.
      * split; [|reflexivity]. intros _. do 3 right. left. exists e. reflexivity.
      * split; [discriminate|]. intros H.
        repeat destruct H as [H|H]; try discriminate H.
        destruct H as [e' H]. congruence.
    + destruct str as [|c str]; simpl.
      * split; [tauto | reflexivity].
      * split; [discriminate|]. intros H.
        repeat destruct H as [H|H]; try discriminate H. destruct H; discriminate.
  - repeat split; try reflexivity; discriminate.
Qed.

Lemma from_dict_truthiness_witness :
  let s := Seat.mk 0 0 0 0 16 true in
  Seat.booked (snd (Seat.from_dict s (PDict [("row"%string, PInt 0)]))) = false /\
  Seat.booked (snd (Seat.from_dict s (PDict [("booked"%string, PBool true)]))) = true /\
  Seat.booked (snd (Seat.from_dict s (PDict [("booked"%string, PStr "")]))) = false.
Proof.
  intros s. split; [|split].
  - apply (proj1 (proj2 (proj2 (from_dict_truthiness s [("row"%string, PInt 0)])))).
    reflexivity.
  - apply (proj1 (proj2 (proj2 (proj2
             (from_dict_truthiness s [("booked"%string, PBool true)])))) true).
    reflexivity.
  - apply (proj2 (proj2 (proj2 (proj2
             (from_dict_truthiness s [("booked"%string, PStr "")])))) (PStr "")).
    + reflexivity.
    + do 4 right. left. reflexivity.
Defined.

(** C9, the claim as stated fails: a ["booked"] field that holds a
    non-empty string, a list or a number other than 0 and 1 is not a
    boolean, and the seat comes out booked. *)
Lemma from_dict_non_boolean_counterexample :
  let s := Seat.init 0 0 0 0 16 in
  let load v := Seat.booked (snd (Seat.from_dict s (PDict [("booked"%string, v)]))) in
  Seat.booked s = false /\
  load (PStr "free") = true /\
  load (PList [PBool false]) = true /\
  load (PInt 7) = true.
Proof. repeat split; reflexivity. Qed.

(** ** [load_state] on a document of the wrong shape *)

(** C1 (the code departs from the claim). [load_state] returns without
    touching the hall when the file is absent, cannot be read or is not
    JSON; on a JSON document of the wrong shape it raises, whatever the
    hall, and leaves hall and file as they were: [AttributeError] for a top level that is not an object,
    [TypeError] for a ["seats"] that cannot be iterated or an entry that is
    not an object, [KeyError] for an entry without [row] or [col]. *)
Theorem load_state_wrong_shape_raises h w tr fl :
  let load f := load_state (mkState h f w tr fl) in
  let raises e f := load f = (Raise e, mkState h f w tr fl) in
  load Absent = (Ok tt, mkState h Absent w tr fl) /\
  load Unreadable = (Ok tt, mkState h Unreadable w tr fl) /\
  load NotJSON = (Ok tt, mkState h NotJSON w tr fl) /\
  raises AttributeError (Json (PList [])) /\
  raises AttributeError (Json (PStr "seats")) /\
  raises TypeError (Json (PDict [("seats"%string, PNone)])) /\
  raises TypeError (Json (PDict [("seats"%string, PList [PInt 1])])) /\
  raises KeyError
    (Json (PDict [("seats"%string,
                   PList [PDict [("col"%string, PInt 0);
                                 ("booked"%string, PBool true)]])])) /\
  raises KeyError
    (Json (PDict [("seats"%string,
                   PList [PDict [("row"%string, PInt 0);
                                 ("booked"%string, PBool true)]])])).
Proof. repeat split; reflexivity. Qed.

(** * Further properties of the code *)

(** ** Hit test *)

Lemma Qsq_nonneg (d : Q) : (0 <= d * d)%Q.
Proof.
  destruct (Qlt_le_dec d 0) as [H|H].
  - assert (0 <= (- d) * (- d))%Q by (apply Qmult_le_0_compat; lra). lra.
  - apply Qmult_le_0_compat; assumption.
Qed.

Lemma contains_iff s px py :
  Seat.contains s px py = true <->
  (0 <= Seat.r s /\
   (px - Seat.x s) * (px - Seat.x s) + (py - Seat.y s) * (py - Seat.y s)
   <= Seat.r s * Seat.r s)%Q.
Proof.
  unfold Seat.contains. cbv zeta. rewrite andb_true_iff, !Qle_bool_iff. tauto.
Qed.

(** X1. The centre of a seat is inside the seat exactly when the radius
    is not negative: a seat with a negative radius contains no point, not
    even its own centre. *)
Theorem contains_centre s :
  Seat.contains s (Seat.x s) (Seat.y s) = Qle_bool 0 (Seat.r s) /\
  ((Seat.r s < 0)%Q -> forall px py, Seat.contains s px py = false).
Proof.
  split.
  - destruct (Qle_bool 0 (Seat.r s)) eqn:E.
    + apply contains_iff. apply Qle_bool_iff in E. split; [exact E|].
      pose proof (Qsq_nonneg (Seat.r s)). lra.
    + unfold Seat.contains. cbv zeta. rewrite E. reflexivity.
  - intros Hr px py. destruct (Seat.contains s px py) eqn:E; [|reflexivity].
    apply contains_iff in E as [H0 _]. lra.
Qed.

Lemma contains_centre_witness :
  Seat.contains (Seat.mk 0 0 3 4 (-1) false) 3 4 = false.
Proof.
  apply (proj2 (contains_centre (Seat.mk 0 0 3 4 (-1) false))). reflexivity.
Defined.

(** ** [to_dict] and [from_dict] *)

(** X3. [from_dict] undoes [to_dict]: applying the dict of a seat [s'] to
    a seat [s] returns and gives [s] the [booked] flag of [s'], nothing
    else of [s'] (row and col of the dict are not read); a seat loaded from
    its own dict is unchanged, and the dict of the loaded seat carries the
    flag of [s']. *)
Theorem from_dict_to_dict s s' :
  Seat.from_dict s (Seat.to_dict s') = (Ok tt, Seat.set_booked s (Seat.booked s')) /\
  Seat.from_dict s (Seat.to_dict s) = (Ok tt, s) /\
  Seat.to_dict (snd (Seat.from_dict s (Seat.to_dict s')))
  = PDict [("row"%string, PInt (Seat.row s)); ("col"%string, PInt (Seat.col s));
           ("booked"%string, PBool (Seat.booked s'))].
Proof.
  split; [reflexivity|]. split; [|reflexivity].
  destruct s. reflexivity.
Qed.

(** X4. [from_dict] on anything that is not an object (a list, a string, a
    number, [None]) raises [AttributeError] and leaves the seat as it was. *)
Theorem from_dict_not_object s v :
  (forall kvs, v <> PDict kvs) ->
  Seat.from_dict s v = (Raise AttributeError, s).
Proof.
  intros Hv. destruct v; try reflexivity. exfalso. eapply Hv. reflexivity.
Qed.

Lemma from_dict_not_object_witness :
  let s := Seat.mk 2 3 0 0 16 true in
  Seat.from_dict s (PList [PBool false]) = (Raise AttributeError, s).
Proof.
  intros s. apply (from_dict_not_object s (PList [PBool false])). discriminate.
Defined.

(** ** Layout of the grid *)

Lemma build_grid_seats h :
  seats (_build_grid h)
  = range (rows h) ≫= fun r =>
      (fun c => Seat.mk r c (seat_x h c) (seat_y h r) (radius h) false)
        <$> range (cols h).
Proof.
  unfold _build_grid, seat_x, seat_y. destruct (_grid_origin h). reflexivity.
Qed.

Lemma lookup_bind_const {A B} (g : A -> list B) (l : list A) n i j a b :
  (forall a, length (g a) = n) ->
  l !! i = Some a -> g a !! j = Some b ->
  (l ≫= g) !! (i * n + j)%nat = Some b.
Proof.
  intros Hn. revert i. induction l as [|a0 l IH]; intros i Hi Hj; [discriminate Hi|].
  rewrite bind_cons. destruct i as [|i]; simpl in Hi.
  - injection Hi as ->. rewrite lookup_app_l; [exact Hj|].
    rewrite Hn. rewrite <- (Hn a). eapply lookup_lt_Some, Hj.
  - rewrite lookup_app_r by (rewrite Hn; lia).
    rewrite Hn. replace (S i * n + j - n)%nat with (i * n + j)%nat by lia.
    apply IH; assumption.
Qed.

Lemma lookup_range n k : 0 <= k < n -> range n !! Z.to_nat k = Some k.
Proof.
  intros Hk. unfold range. rewrite lookup_seqZ_lt by lia. f_equal. lia.
Qed.

(** X5. The seats are built row by row: for a row [r] and a column [c] in
    range, the seat at index [r * cols + c] is the free seat [(r, c)] with
    the hall's radius, at the centre the layout formula gives. *)
Theorem build_grid_row_major h r c :
  0 <= r < rows h -> 0 <= c < cols h ->
  seats (_build_grid h) !! Z.to_nat (r * cols h + c)
  = Some (Seat.mk r c
            (fst (_grid_origin h) + inject_Z c * (2 * radius h + gap_x h) + radius h)
            (snd (_grid_origin h) + inject_Z r * (2 * radius h + gap_y h) + radius h)
            (radius h) false).
Proof.
  intros Hr Hc. rewrite build_grid_seats.
  replace (Z.to_nat (r * cols h + c))
    with (Z.to_nat r * Z.to_nat (cols h) + Z.to_nat c)%nat by nia.
  apply (lookup_bind_const _ _ _ _ _ r).
  - intros a. rewrite length_fmap. unfold range. apply length_seqZ.
  - apply lookup_range, Hr.
  - rewrite list_lookup_fmap, (lookup_range _ _ Hc). reflexivity.
Qed.

Lemma build_grid_row_major_witness :
  let h := CinemaHall.mk 8 12 16 18 24 [] in
  seat_id <$> (seats (_build_grid h) !! 95%nat) = Some (7, 11).
Proof.
  intros h.
  assert (H : seats (_build_grid h) !! Z.to_nat (7 * cols h + 11)
              = Some (Seat.mk 7 11
                        (fst (_grid_origin h) + inject_Z 11 * (2 * radius h + gap_x h) + radius h)
                        (snd (_grid_origin h) + inject_Z 7 * (2 * radius h + gap_y h) + radius h)
                        (radius h) false))
    by (apply (build_grid_row_major h 7 11); simpl; lia).
  change (Z.to_nat (7 * cols h + 11)) with 95%nat in H.
  rewrite H. reflexivity.
Defined.

Lemma build_grid_length h :
  length (seats (_build_grid h)) = (Z.to_nat (rows h) * Z.to_nat (cols h))%nat.
Proof.
  rewrite <- (length_fmap seat_id), build_grid_ids. apply length_grid_ids.
Qed.

(** X6. With a number of rows or of columns that is zero or negative the
    constructor builds a hall without seats, and the footer then shows no
    free seat and [rows * cols] sold ones: a negative number, or a positive
    one when both are negative. *)
Theorem build_grid_empty rows cols radius gap_x gap_y st :
  rows <= 0 \/ cols <= 0 ->
  let st1 := snd (__init__ rows cols radius gap_x gap_y st) in
  seats (hall st1) = [] /\
  _draw_footer_counters (hall st1) = (0, rows * cols).
Proof.
  intros Hneg st1.
  destruct (init_frame rows cols radius gap_x gap_y st) as [Hc Hg].
  fold st1 in Hc, Hg.
  assert (Hnil : seats (hall st1) = []).
  { apply (fmap_nil_inv geom). rewrite Hg.
    rewrite (nil_length_inv (seats (_build_grid _))); [reflexivity|].
    rewrite build_grid_length. simpl. lia. }
  split; [exact Hnil|].
  unfold _draw_footer_counters. rewrite Hnil. simpl.
  unfold _build_grid in Hc. destruct (_grid_origin _) in Hc.
  injection Hc as -> -> _ _ _. f_equal. lia.
Qed.

Lemma build_grid_empty_witness :
  let st0 := mkState (CinemaHall.mk 0 0 0 0 0 []) Absent true [] AtOpen in
  let st1 := snd (__init__ (-2) (-3) 16 18 24 st0) in
  seats (hall st1) = [] /\ _draw_footer_counters (hall st1) = (0, 6).
Proof.
  intros st0.
  apply (build_grid_empty (-2) (-3) 16 18 24 st0). lia.
Defined.

(** ** More on loading *)

Lemma load_state_cases st :
  load_state st = (Ok tt, st) \/
  (exists e, load_state st = (Raise e, st)) \/
  (exists state,
      forall st', file st' = file st ->
                  load_state st' = each_seat (load_seat state) st').
Proof.
  destruct (file st) as [| | |data] eqn:Hf.
  - left. apply load_state_unparsable. auto.
  - left. apply load_state_unparsable. auto.
  - left. apply load_state_unparsable. auto.
  - destruct (obind (get data "seats" (PList [])) iter) as [es|e] eqn:Hes.
    + destruct (state_of es []) as [state|e] eqn:Hstate.
      * right. right. exists state. intros st' Hst'.
        unfold load_state, CinemaHall.bind, read, lift.
        rewrite Hst'. simpl. rewrite Hes, Hstate. reflexivity.
      * right. left. exists e.
        unfold load_state, CinemaHall.bind, read, lift.
        rewrite Hf. simpl. rewrite Hes, Hstate. reflexivity.
    + right. left. exists e.
      unfold load_state, CinemaHall.bind, read, lift.
      rewrite Hf. simpl. rewrite Hes. reflexivity.
Qed.

Lemma set_booked_twice s b b' :
  Seat.set_booked (Seat.set_booked s b) b' = Seat.set_booked s b'.
Proof. reflexivity. Qed.

Lemma load_seat_idem state s :
  load_seat state (snd (load_seat state s)) = load_seat state s.
Proof.
  assert (Hid : forall s', geom s' = geom s ->
                  tupdict_get (ikey (seat_id s')) state
                  = tupdict_get (ikey (seat_id s)) state).
  { intros s' Hg.
    replace (seat_id s') with (seat_id s); [reflexivity|].
    exact (f_equal (fun g : Z * Z * Q * Q * Q => (g.1.1.1.1, g.1.1.1.2))
                   (eq_sym Hg)). }
  pose proof (load_seat_geom state s) as Hg.
  rewrite (load_seat_key state (snd _)), (Hid _ Hg), (load_seat_key state s).
  rewrite (load_seat_key state s) in Hg.
  destruct (tupdict_get (ikey (seat_id s)) state) as [d|]; [|reflexivity].
  destruct (truth d); [|reflexivity].
  unfold Seat.from_dict in *.
  destruct (get d "booked" (PBool false)); reflexivity.
Qed.

Lemma for_seats_idem body l :
  (forall s, body (snd (body s)) = body s) ->
  for_seats body (snd (for_seats body l)) = for_seats body l.
Proof.
  intros Hbody. induction l as [|s l IH]; [reflexivity|].
  simpl. specialize (Hbody s).
  destruct (body s) as [[[]|e] s'] eqn:Hs; simpl in *.
  - destruct (for_seats body l) as [o l'] eqn:Hl. simpl in *.
    rewrite Hbody, IH. reflexivity.
  - rewrite Hbody. reflexivity.
Qed.

Lemma each_seat_idem body st :
  (forall s, body (snd (body s)) = body s) ->
  each_seat body (snd (each_seat body st)) = each_seat body st.
Proof.
  intros Hbody. unfold each_seat.
  pose proof (for_seats_idem body (seats (hall st)) Hbody) as H.
  destruct (for_seats body (seats (hall st))) as [o l]. simpl in *.
  rewrite H. reflexivity.
Qed.

Lemma each_seat_file body st : file (snd (each_seat body st)) = file st.
Proof. unfold each_seat. destruct (for_seats _ _). reflexivity. Qed.

(** X12. [load_state] is idempotent, on every file: a second call right
    after the first ends the same way (returns, or raises the same
    exception) and leaves the state the first call left. *)
Theorem load_state_idempotent st :
  load_state (snd (load_state st)) = load_state st.
Proof.
  destruct (load_state_cases st) as [H | [[e H] | [state H]]].
  - rewrite H. simpl. exact H.
  - rewrite H. simpl. exact H.
  - rewrite (H st eq_refl).
    rewrite (H (snd (each_seat (load_seat state) st)) (each_seat_file _ _)).
    apply each_seat_idem, load_seat_idem.
Qed.

Lemma set_entries_app es1 es2 acc :
  set_entries (es1 ++ es2) acc = set_entries es2 (set_entries es1 acc).
Proof. unfold set_entries. apply fold_left_app. Qed.

Lemma get_set_entries_elem p d es acc :
  int_keyed acc ->
  tupdict_get (ikey p) (set_entries es acc) = Some d ->
  d ∈ es \/ tupdict_get (ikey p) acc = Some d.
Proof.
  revert acc. induction es as [|e es IH]; intros acc Hacc Hget; [right; exact Hget|].
  change (set_entries (e :: es) acc)
    with (set_entries es (tupdict_set (ikey (key_of e)) e acc)) in Hget.
  destruct (IH _ (int_keyed_set _ _ _ Hacc) Hget) as [Hin | Hset].
  - left. right. exact Hin.
  - rewrite tupdict_get_set in Hset by exact Hacc.
    case_decide; [|right; exact Hset]. left. injection Hset as <-. left.
Qed.

Lemma get_set_entries_last d es1 es2 :
  key_of d ∉ key_of <$> es2 ->
  tupdict_get (ikey (key_of d)) (set_entries (es1 ++ d :: es2) []) = Some d.
Proof.
  intros Hout. rewrite set_entries_app.
  change (set_entries (d :: es2) (set_entries es1 []))
    with (set_entries es2 (tupdict_set (ikey (key_of d)) d (set_entries es1 []))).
  assert (Hk : int_keyed (set_entries es1 []))
    by (apply int_keyed_set_entries; constructor).
  rewrite get_set_entries_notin by (auto using int_keyed_set).
  rewrite tupdict_get_set by exact Hk. case_decide; congruence.
Qed.

Lemma load_seat_entries_ok es s :
  Forall (fun d => is_Some (entry_id d)) es ->
  fst (load_seat (set_entries es []) s) = Ok tt.
Proof.
  intros Hes. rewrite load_seat_key.
  destruct (tupdict_get _ _) as [d|] eqn:Hget; [|reflexivity].
  destruct (truth d); [|reflexivity].
  apply get_set_entries_elem in Hget as [Hin | Hnil];
    [|discriminate Hnil | constructor].
  rewrite Forall_forall in Hes. destruct (Hes d Hin) as [p Hp].
  destruct d; try discriminate Hp.
  unfold Seat.from_dict. simpl. destruct (dict_lookup _ _); reflexivity.
Qed.

Lemma for_seats_all_ok body l :
  (forall s, fst (body s) = Ok tt) ->
  for_seats body l = (Ok tt, (fun s => snd (body s)) <$> l).
Proof.
  intros Hbody. induction l as [|s l IH]; [reflexivity|].
  simpl. specialize (Hbody s).
  destruct (body s) as [[[]|e] s']; [|discriminate Hbody].
  rewrite IH. reflexivity.
Qed.

(** [load_state] on a document whose ["seats"] (or the default list, when
    the key is missing) holds entries with integer [row] and [col]: it
    returns, and every seat is what [load_seat] makes of it. *)
Lemma load_state_pointwise st data es :
  file st = Json data ->
  get data "seats" (PList []) = Ok (PList es) ->
  Forall (fun d => is_Some (entry_id d)) es ->
  load_state st =
  (Ok tt,
   with_hall st
     (set_seats (hall st)
        ((fun s => snd (load_seat (set_entries es []) s)) <$> seats (hall st)))).
Proof.
  intros Hf Hget Hes. unfold load_state, CinemaHall.bind, read, lift.
  rewrite Hf. simpl. rewrite Hget. simpl.
  rewrite (state_of_entries es [] Hes). unfold each_seat.
  rewrite (for_seats_all_ok _ _ (fun s => load_seat_entries_ok es s Hes)).
  reflexivity.
Qed.

(** X13. A seat that no entry of the snapshot names keeps its state when
    the snapshot is loaded: [load_state] does not reset it, a booked seat
    stays booked. (The entries all have an integer [row] and [col]; the
    ["seats"] key may be missing, which counts as an empty list.) *)
Theorem load_state_keeps_unlisted st data es i s :
  file st = Json data ->
  get data "seats" (PList []) = Ok (PList es) ->
  Forall (fun d => is_Some (entry_id d)) es ->
  seats (hall st) !! i = Some s ->
  seat_id s ∉ key_of <$> es ->
  fst (load_state st) = Ok tt /\
  seats (hall (snd (load_state st))) !! i = Some s.
Proof.
  intros Hf Hget Hes Hi Hout.
  rewrite (load_state_pointwise st data es Hf Hget Hes). simpl.
  split; [reflexivity|].
  rewrite list_lookup_fmap, Hi. simpl. f_equal.
  rewrite load_seat_key, get_set_entries_notin; [reflexivity|constructor|exact Hout].
Qed.

Lemma load_state_keeps_unlisted_witness :
  let s := Seat.mk 0 1 19 (-47) 10 true in
  let st := mkState (CinemaHall.mk 1 2 10 18 24 [Seat.mk 0 0 (-19) (-47) 10 false; s])
                    (Json (PDict [("seats"%string,
                                   PList [PDict [("row"%string, PInt 0);
                                                 ("col"%string, PInt 0);
                                                 ("booked"%string, PBool true)]])]))
                    true [] AtOpen in
  fst (load_state st) = Ok tt /\
  seats (hall (snd (load_state st))) !! 1%nat = Some s.
Proof.
  intros s st.
  apply (load_state_keeps_unlisted st _
           [PDict [("row"%string, PInt 0); ("col"%string, PInt 0);
                   ("booked"%string, PBool true)]] 1%nat s eq_refl eq_refl).
  - repeat constructor. eexists. reflexivity.
  - reflexivity.
  - intros H. apply list_elem_of_singleton in H. discriminate H.
Defined.

(** X14. Entries for seats the hall does not have are ignored: when no
    entry of the snapshot names a seat of the hall (entries out of the
    grid, an empty list, a document without ["seats"]), [load_state]
    returns and changes nothing. *)
Theorem load_state_ignores_unknown st data es :
  file st = Json data ->
  get data "seats" (PList []) = Ok (PList es) ->
  Forall (fun d => is_Some (entry_id d)) es ->
  (forall s, s ∈ seats (hall st) -> seat_id s ∉ key_of <$> es) ->
  load_state st = (Ok tt, st).
Proof.
  intros Hf Hget Hes Hout.
  rewrite (load_state_pointwise st data es Hf Hget Hes).
  assert (Hl : (fun s => snd (load_seat (set_entries es []) s)) <$> seats (hall st)
               = seats (hall st)).
  { rewrite <- (list_fmap_id (seats (hall st))) at 2.
    apply list_fmap_ext. intros i s Hi. simpl.
    rewrite load_seat_key, get_set_entries_notin; [reflexivity|constructor|].
    apply Hout. eapply list_elem_of_lookup_2, Hi. }
  rewrite Hl, with_hall_id. reflexivity.
Qed.

Lemma load_state_ignores_unknown_witness :
  let st := mkState (_build_grid (CinemaHall.mk 1 2 10 18 24 []))
                    (Json (PDict [("seats"%string,
                                   PList [PDict [("row"%string, PInt 5);
                                                 ("col"%string, PInt 0);
                                                 ("booked"%string, PBool true)]])]))
                    true [] AtOpen in
  load_state st = (Ok tt, st).
Proof.
  intros st.
  apply (load_state_ignores_unknown st _
           [PDict [("row"%string, PInt 5); ("col"%string, PInt 0);
                   ("booked"%string, PBool true)]] eq_refl eq_refl).
  - repeat constructor. eexists. reflexivity.
  - intros s Hs H. apply list_elem_of_singleton in H.
    apply list_elem_of_lookup in Hs as [[|[|i]] Hi]; simpl in Hi;
      try discriminate Hi; injection Hi as <-; discriminate H.
Defined.

(** X15. When several entries name the same seat, the one that comes last
    in the list is the one applied: the seat takes the truth value of the
    ["booked"] field of that entry (free if the entry has none), whatever
    the earlier entries say. *)
Theorem load_state_last_entry_wins st data es1 d es2 i s v :
  file st = Json data ->
  get data "seats" (PList []) = Ok (PList (es1 ++ d :: es2)) ->
  Forall (fun d => is_Some (entry_id d)) (es1 ++ d :: es2) ->
  seats (hall st) !! i = Some s ->
  entry_id d = Some (seat_id s) ->
  seat_id s ∉ key_of <$> es2 ->
  get d "booked" (PBool false) = Ok v ->
  fst (load_state st) = Ok tt /\
  seats (hall (snd (load_state st))) !! i = Some (Seat.set_booked s (truth v)).
Proof.
  intros Hf Hget Hes Hi Hd Hout Hv.
  rewrite (load_state_pointwise st data _ Hf Hget Hes). simpl.
  split; [reflexivity|].
  rewrite list_lookup_fmap, Hi. simpl. f_equal.
  assert (Hk : key_of d = seat_id s) by (unfold key_of; rewrite Hd; reflexivity).
  rewrite load_seat_key, <- Hk, get_set_entries_last by (rewrite Hk; exact Hout).
  destruct d as [| | | | | |kvs]; try discriminate Hd.
  assert (Ht : truth (PDict kvs) = true).
  { destruct kvs; [discriminate Hd | reflexivity]. }
  rewrite Ht. unfold Seat.from_dict. rewrite Hv. reflexivity.
Qed.

Lemma load_state_last_entry_wins_witness :
  let e b := PDict [("row"%string, PInt 0); ("col"%string, PInt 0);
                    ("booked"%string, PBool b)] in
  let s := Seat.mk 0 0 0 0 16 false in
  let st := mkState (CinemaHall.mk 1 1 16 18 24 [s])
                    (Json (PDict [("seats"%string, PList [e false; e true])]))
                    true [] AtOpen in
  fst (load_state st) = Ok tt /\
  seats (hall (snd (load_state st))) !! 0%nat = Some (Seat.set_booked s true).
Proof.
  intros e s st.
  apply (load_state_last_entry_wins st _ [e false] (e true) [] 0%nat s (PBool true)
           eq_refl eq_refl).
  - repeat constructor; eexists; reflexivity.
  - reflexivity.
  - reflexivity.
  - intros H. inversion H.
  - reflexivity.
Defined.

(** ** Disk and memory *)

Lemma save_state_eq st :
  writable st = true ->
  save_state st
  = (Ok tt, mkState (hall st) (Json (snapshot (hall st))) true
                    (trace st ++ [Saved (snapshot (hall st))]) (failure st)).
Proof. intros Hw. unfold save_state. rewrite Hw. reflexivity. Qed.

(** Loading the snapshot of the hall itself changes nothing, when no two
    seats share an identity. *)
Lemma load_own_snapshot st :
  in_sync st -> NoDup (seat_id <$> seats (hall st)) ->
  load_state st = (Ok tt, st).
Proof.
  intros Hsync Hnd.
  rewrite (load_state_entries st _ (Seat.to_dict <$> seats (hall st))
             Hsync eq_refl (snapshot_entries _)).
  unfold each_seat.
  rewrite (load_snapshot_seats _ _ Hnd eq_refl), with_hall_id. reflexivity.
Qed.

(** X16. What [save_state] writes, [load_state] reads back without
    raising, for every hall, even one whose seats share identities; and
    when the identities are pairwise distinct, loading right after saving
    changes nothing at all. *)
Theorem load_after_save st :
  writable st = true ->
  let st1 := snd (save_state st) in
  fst (load_state st1) = Ok tt /\
  (NoDup (seat_id <$> seats (hall st)) -> load_state st1 = (Ok tt, st1)).
Proof.
  intros Hw st1.
  assert (H1 : st1 = mkState (hall st) (Json (snapshot (hall st))) true
                             (trace st ++ [Saved (snapshot (hall st))])
                             (failure st)).
  { unfold st1. rewrite (save_state_eq st Hw). reflexivity. }
  split.
  - rewrite (load_state_pointwise st1 (snapshot (hall st))
               (Seat.to_dict <$> seats (hall st))).
    + reflexivity.
    + rewrite H1. reflexivity.
    + reflexivity.
    + apply snapshot_entries.
  - intros Hnd. apply load_own_snapshot; rewrite H1; [reflexivity | exact Hnd].
Qed.

Lemma load_after_save_witness :
  let a := Seat.mk 0 0 0 0 2 false in
  let b := Seat.mk 0 0 1 0 2 true in
  let st := mkState (CinemaHall.mk 1 2 2 0 0 [a; b]) Absent true [] AtOpen in
  fst (load_state (snd (save_state st))) = Ok tt.
Proof.
  intros a b st.
  exact (proj1 (load_after_save st eq_refl)).
Defined.

Lemma build_grid_congr h h' :
  config h = config h' -> seats (_build_grid h) = seats (_build_grid h').
Proof.
  intros Hc. rewrite <- (build_grid_config h), <- (build_grid_config h').
  unfold config in Hc. injection Hc as -> -> -> -> ->. reflexivity.
Qed.

Lemma grid_hall_frame st st' :
  same_frame st st' -> grid_hall (hall st) -> grid_hall (hall st').
Proof.
  intros [Hc Hg] H. unfold grid_hall.
  rewrite Hg, H, (build_grid_congr _ _ Hc). reflexivity.
Qed.

Lemma run_op_in_sync o st :
  grid_hall (hall st) -> writable st = true -> in_sync st ->
  writable (run_op o st) = true /\ in_sync (run_op o st).
Proof.
  intros Hg Hw Hsync. destruct o as [| |px py|]; simpl.
  - rewrite (load_own_snapshot st Hsync (grid_hall_NoDup _ Hg)). auto.
  - rewrite (save_state_eq st Hw). split; reflexivity.
  - destruct (last_hit_split px py (seats (hall st)))
      as [Hmiss | (l1 & s & l2 & Hl & Hs & Hl2)].
    + rewrite (toggle_at_miss px py st Hmiss). auto.
    + rewrite (toggle_at_hit px py st _ _ _ Hl Hs Hl2), Hw. split; reflexivity.
  - rewrite reset_all_eq, Hw. split; reflexivity.
Qed.

(** X17. Once the file holds the snapshot of the hall, it keeps doing so:
    for a laid-out hall and a file that can be written, after any
    sequence of [load_state], [save_state], [toggle_at] and [reset_all]
    calls the file is the snapshot of the hall as it then is in memory.
    Disk and memory do not drift apart. *)
Theorem in_sync_invariant st ops :
  grid_hall (hall st) -> writable st = true -> in_sync st ->
  file (run_ops ops st)
  = Json (PDict [("seats"%string,
                  PList (Seat.to_dict <$> seats (hall (run_ops ops st))))]).
Proof.
  intros Hg Hw Hsync.
  enough (H : grid_hall (hall (run_ops ops st)) /\
              writable (run_ops ops st) = true /\ in_sync (run_ops ops st))
    by (destruct H as (_ & _ & H); exact H).
  revert st Hg Hw Hsync. induction ops as [|o ops IH]; intros st Hg Hw Hsync.
  - auto.
  - simpl. destruct (run_op_in_sync o st Hg Hw Hsync) as [Hw' Hsync'].
    apply IH; [|exact Hw'|exact Hsync'].
    exact (grid_hall_frame _ _ (run_op_frame o st) Hg).
Qed.

Lemma in_sync_invariant_witness :
  let st0 := mkState (CinemaHall.mk 0 0 0 0 0 []) Absent true [] AtOpen in
  let st := snd (reset_all (snd (__init__ 2 2 10 18 24 st0))) in
  let ops := [ToggleAt 19 (-47); Load; ToggleAt 0 0; ToggleAt (-19) (-3); Load] in
  file (run_ops ops st)
  = Json (PDict [("seats"%string,
                  PList (Seat.to_dict <$> seats (hall (run_ops ops st))))]).
Proof.
  intros st0 st ops.
  apply (in_sync_invariant st ops); reflexivity.
Defined.



(** ** The counters of the footer *)

Lemma booked_count_cons s l :
  booked_count (s :: l) = (if Seat.booked s then 1 else 0) + booked_count l.
Proof.
  unfold booked_count. rewrite filter_cons.
  destruct (Seat.booked s); case_decide; try congruence; simpl; lia.
Qed.

Lemma booked_count_app l1 l2 :
  booked_count (l1 ++ l2) = booked_count l1 + booked_count l2.
Proof.
  unfold booked_count. rewrite filter_app, length_app. lia.
Qed.

Lemma free_count l :
  foldr (fun s acc => (if Seat.booked s then 0 else 1) + acc) 0 l
  = Z.of_nat (length l) - booked_count l.
Proof.
  induction l as [|s l IH]; [reflexivity|].
  rewrite booked_count_cons. simpl foldr. rewrite IH.
  destruct (Seat.booked s); simpl length; lia.
Qed.

Lemma grid_hall_length h :
  grid_hall h -> 0 <= rows h -> 0 <= cols h ->
  Z.of_nat (length (seats h)) = rows h * cols h.
Proof.
  intros Hg Hr Hc.
  rewrite <- (length_fmap geom), Hg, length_fmap, build_grid_length. lia.
Qed.

(** X19. For a laid-out hall whose numbers of rows and columns are not
    negative, the footer shows the truth: [Sold] is the number of booked
    seats and [Free] the number of the others, [rows * cols] minus the
    booked ones. *)
Theorem footer_counters h :
  grid_hall h -> 0 <= rows h -> 0 <= cols h ->
  _draw_footer_counters h
  = (rows h * cols h - booked_count (seats h), booked_count (seats h)) /\
  0 <= booked_count (seats h) <= rows h * cols h.
Proof.
  intros Hg Hr Hc. pose proof (grid_hall_length h Hg Hr Hc) as Hlen.
  unfold _draw_footer_counters. rewrite free_count, Hlen. split.
  - f_equal. lia.
  - rewrite <- Hlen. unfold booked_count.
    pose proof (length_filter (fun s => Seat.booked s = true) (seats h)). lia.
Qed.

Lemma footer_counters_witness :
  let st0 := mkState (CinemaHall.mk 0 0 0 0 0 []) Absent true [] AtOpen in
  let st := run_ops [ToggleAt 19 (-47); ToggleAt (-19) (-3)]
                    (snd (__init__ 2 2 10 18 24 st0)) in
  _draw_footer_counters (hall st) = (2 * 2 - 2, 2).
Proof.
  intros st0 st.
  assert (Hg : grid_hall (hall st)) by reflexivity.
  assert (Hr : 0 <= rows (hall st)) by discriminate.
  assert (Hc : 0 <= cols (hall st)) by discriminate.
  exact (proj1 (footer_counters (hall st) Hg Hr Hc)).
Defined.

(** X20. A [toggle_at] that hits changes the number of booked seats by
    exactly one: one more when the seat it flips was free, one less when
    it was booked. *)
Theorem toggle_at_booked_count st px py i s :
  seats (hall st) !! i = Some s -> Seat.contains s px py = true ->
  (forall j s', (i < j)%nat -> seats (hall st) !! j = Some s' ->
                Seat.contains s' px py = false) ->
  booked_count (seats (hall (snd (toggle_at px py st))))
  = booked_count (seats (hall st)) + (if Seat.booked s then -1 else 1).
Proof.
  intros Hi Hs Hlater.
  destruct (split_at_last_hit px py _ i s Hi Hlater) as [Hsplit Hmiss].
  destruct (toggle_at_hit_hall px py st _ _ _ Hsplit Hs Hmiss) as [Hh _].
  rewrite Hh. simpl. rewrite Hsplit at 3.
  rewrite !booked_count_app, !booked_count_cons. unfold flip. simpl.
  destruct (Seat.booked s); simpl; lia.
Qed.

Lemma toggle_at_booked_count_witness :
  let a := Seat.mk 0 0 0 0 2 false in
  let b := Seat.mk 0 1 1 0 2 true in
  let st := mkState (CinemaHall.mk 1 2 2 0 0 [a; b]) Absent true [] AtOpen in
  booked_count (seats (hall (snd (toggle_at (1 # 2) 0 st)))) = 1 + -1.
Proof.
  intros a b st.
  apply (toggle_at_booked_count st (1 # 2) 0 1%nat b).
  - reflexivity.
  - reflexivity.
  - intros [|[|[|j]]] s' Hj Hl; simpl in Hl; try lia; discriminate Hl.
Defined.
